(** * aiosmtp: the SMTP session engine of [aiosmtp/protocol.py]

    A shallow embedding of [SmtpProtocol] (session state, command
    dispatch, the command handlers, the data phase, the run loop and the
    lifecycle operations) together with the properties of the session
    state machine.

    Python [bytes] are modelled as [string] (a sequence of 8-bit
    characters).  Coroutines are modelled as computations in a small
    state/exception/output monad [M]: the state is the session object,
    the output is the sequence of calls made on the stream writer and on
    the delivery handler, and a raised Python exception ends the
    computation.  The collaborators that live outside this module (the
    address parser of the [email] package, the delivery handler and the
    transport behind the stream writer) are interfaces. *)

From Stdlib Require Import ZArith String Ascii List Bool Lia DecimalString.
From stdpp Require Import base tactics option list gmap strings.
Import ListNotations.

Local Open Scope string_scope.
Local Open Scope Z_scope.

(** ** Byte strings *)

Definition bytes := string.

(** Modelled from the spec: [const.LINE_TERM] is defined in the module
    [aiosmtp/const.py]; every response is a CRLF-terminated line. *)
Definition LINE_TERM : bytes := String "013" (String "010" EmptyString).

Module Bytes.

(** The bytes that [bytes.strip] removes: space, TAB, LF, VT, FF, CR. *)
Definition is_space (c : ascii) : bool :=
  let n := nat_of_ascii c in
  (Nat.eqb n 32 || (Nat.leb 9 n && Nat.leb n 13))%bool.

Definition is_empty (s : bytes) : bool :=
  match s with EmptyString => true | String _ _ => false end.

Fixpoint lstrip (s : bytes) : bytes :=
  match s with
  | EmptyString => EmptyString
  | String c r => if is_space c then lstrip r else s
  end.

Fixpoint rstrip (s : bytes) : bytes :=
  match s with
  | EmptyString => EmptyString
  | String c r =>
      let r' := rstrip r in
      if (is_space c && is_empty r')%bool then EmptyString else String c r'
  end.

Definition strip (s : bytes) : bytes := rstrip (lstrip s).

Definition upper_char (c : ascii) : ascii :=
  let n := nat_of_ascii c in
  if (Nat.leb 97 n && Nat.leb n 122)%bool then ascii_of_nat (n - 32) else c.

Fixpoint upper (s : bytes) : bytes :=
  match s with
  | EmptyString => EmptyString
  | String c r => String (upper_char c) (upper r)
  end.

Fixpoint find_from (c : ascii) (s : bytes) (i : Z) : Z :=
  match s with
  | EmptyString => -1
  | String d r => if Ascii.eqb d c then i else find_from c r (i + 1)
  end.

(** [s.find(c)]: the index of the first [c], or [-1]. *)
Definition find (s : bytes) (c : ascii) : Z := find_from c s 0.

Fixpoint take (n : nat) (s : bytes) : bytes :=
  match n, s with
  | S k, String c r => String c (take k r)
  | _, _ => EmptyString
  end.

Fixpoint drop (n : nat) (s : bytes) : bytes :=
  match n, s with
  | S k, String _ r => drop k r
  | _, _ => s
  end.

(** [s[:i]] and [s[i:]] at an index [0 <= i]; the source slices only
    at indices returned by a successful [find] or at a length. *)
Definition slice_to (i : Z) (s : bytes) : bytes := take (Z.to_nat i) s.
Definition slice_from (i : Z) (s : bytes) : bytes := drop (Z.to_nat i) s.

(** [s[i]]: a single item of a [bytes] object is an [int]. *)
Definition item (s : bytes) (i : Z) : option Z :=
  if i <? 0 then None
  else match String.get (Z.to_nat i) s with
       | Some c => Some (Z.of_nat (nat_of_ascii c))
       | None => None
       end.

Definition startswith (s p : bytes) : bool := String.prefix p s.

Definition endswith (s p : bytes) : bool :=
  let ls := String.length s in
  let lp := String.length p in
  (Nat.leb lp ls && String.eqb (drop (ls - lp) s) p)%bool.

(** [s.split(sep)] with an explicit one-byte separator. *)
Fixpoint split (sep : ascii) (s : bytes) : list bytes :=
  match s with
  | EmptyString => [EmptyString]
  | String c r =>
      if Ascii.eqb c sep then EmptyString :: split sep r
      else match split sep r with
           | [] => [String c EmptyString]
           | h :: t => String c h :: t
           end
  end.

(** [sep.join(parts)]. *)
Fixpoint join (sep : bytes) (parts : list bytes) : bytes :=
  match parts with
  | [] => EmptyString
  | [p] => p
  | p :: rest => p +:+ sep +:+ join sep rest
  end.

(** [str(b, 'ascii')] succeeds exactly on bytes below 128. *)
Fixpoint is_ascii (s : bytes) : bool :=
  match s with
  | EmptyString => true
  | String c r => (Nat.ltb (nat_of_ascii c) 128 && is_ascii r)%bool
  end.

Definition digit_of (c : ascii) : option Z :=
  let n := nat_of_ascii c in
  if (Nat.leb 48 n && Nat.leb n 57)%bool then Some (Z.of_nat (n - 48)) else None.

Fixpoint digits (s : bytes) (acc : Z) : option Z :=
  match s with
  | EmptyString => Some acc
  | String c r =>
      match digit_of c with
      | Some d => digits r (10 * acc + d)
      | None => None
      end
  end.

(** [int(str(v, 'ascii'))] for the interpreters the package declares
    (Python 3.3 to 3.5): surrounding white space, an optional sign and
    a non-empty run of decimal digits.  [None] stands for the
    [UnicodeDecodeError] or [ValueError] raised otherwise. *)
Definition to_int (v : bytes) : option Z :=
  if negb (is_ascii v) then None
  else
    match strip v with
    | EmptyString => None
    | String c r =>
        if Ascii.eqb c "-"%char then
          (if is_empty r then None else option_map Z.opp (digits r 0))
        else if Ascii.eqb c "+"%char then
          (if is_empty r then None else digits r 0)
        else digits (String c r) 0
    end.

(** [bytes(str(n), 'ascii')]. *)
Definition of_int (n : Z) : bytes := NilZero.string_of_int (Z.to_int n).

End Bytes.

(** ** Data model *)

Inductive conn_state := STATE_CONNECTING | STATE_OPEN | STATE_CLOSED.
Inductive read_mode := READ_MODE_COMMAND | READ_MODE_DATA.

(** An [asyncio.Future]: pending, or done with a result. *)
Inductive future (A : Type) := Pending | Done (a : A).
Arguments Pending {A}.
Arguments Done {A} a.

Definition done {A} (f : future A) : bool :=
  match f with Pending => false | Done _ => true end.

(** The attributes of an [SmtpProtocol] instance. *)
Record SmtpProtocol := mkSmtpProtocol {
  _fqdn : bytes;
  _state : conn_state;
  connection_open : future bool;
  connection_closed : future unit;
  _read_mode : read_mode;
  _helo : option bytes;
  _sender : option bytes;
  _recipients : list bytes;
  _allowed_recipients : gset string;
  _is_esmtp : bool;
  _max_size : option Z;
  _message_size : option Z;
  _recipients_truncated : bool
}.

#[export] Instance conn_state_eq_dec : EqDecision conn_state.
Proof. solve_decision. Defined.
#[export] Instance read_mode_eq_dec : EqDecision read_mode.
Proof. solve_decision. Defined.

(** Python truth values of the attribute types used in conditions. *)
Definition truthy_bytes (b : option bytes) : bool :=
  match b with Some s => negb (Bytes.is_empty s) | None => false end.

Definition truthy_int (n : option Z) : bool :=
  match n with Some z => negb (z =? 0) | None => false end.

Definition truthy_list {A} (l : list A) : bool :=
  match l with [] => false | _ :: _ => true end.

(** Attribute assignment, one setter per attribute the code assigns. *)
Definition set_state (v : conn_state) (s : SmtpProtocol) : SmtpProtocol :=
  mkSmtpProtocol (_fqdn s) v (connection_open s) (connection_closed s)
    (_read_mode s) (_helo s) (_sender s) (_recipients s)
    (_allowed_recipients s) (_is_esmtp s) (_max_size s) (_message_size s)
    (_recipients_truncated s).

Definition set_connection_open (v : future bool) (s : SmtpProtocol) : SmtpProtocol :=
  mkSmtpProtocol (_fqdn s) (_state s) v (connection_closed s)
    (_read_mode s) (_helo s) (_sender s) (_recipients s)
    (_allowed_recipients s) (_is_esmtp s) (_max_size s) (_message_size s)
    (_recipients_truncated s).

Definition set_connection_closed (v : future unit) (s : SmtpProtocol) : SmtpProtocol :=
  mkSmtpProtocol (_fqdn s) (_state s) (connection_open s) v
    (_read_mode s) (_helo s) (_sender s) (_recipients s)
    (_allowed_recipients s) (_is_esmtp s) (_max_size s) (_message_size s)
    (_recipients_truncated s).

Definition set_read_mode (v : read_mode) (s : SmtpProtocol) : SmtpProtocol :=
  mkSmtpProtocol (_fqdn s) (_state s) (connection_open s) (connection_closed s)
    v (_helo s) (_sender s) (_recipients s)
    (_allowed_recipients s) (_is_esmtp s) (_max_size s) (_message_size s)
    (_recipients_truncated s).

Definition set_helo (v : option bytes) (s : SmtpProtocol) : SmtpProtocol :=
  mkSmtpProtocol (_fqdn s) (_state s) (connection_open s) (connection_closed s)
    (_read_mode s) v (_sender s) (_recipients s)
    (_allowed_recipients s) (_is_esmtp s) (_max_size s) (_message_size s)
    (_recipients_truncated s).

Definition set_sender (v : option bytes) (s : SmtpProtocol) : SmtpProtocol :=
  mkSmtpProtocol (_fqdn s) (_state s) (connection_open s) (connection_closed s)
    (_read_mode s) (_helo s) v (_recipients s)
    (_allowed_recipients s) (_is_esmtp s) (_max_size s) (_message_size s)
    (_recipients_truncated s).

Definition set_recipients (v : list bytes) (s : SmtpProtocol) : SmtpProtocol :=
  mkSmtpProtocol (_fqdn s) (_state s) (connection_open s) (connection_closed s)
    (_read_mode s) (_helo s) (_sender s) v
    (_allowed_recipients s) (_is_esmtp s) (_max_size s) (_message_size s)
    (_recipients_truncated s).

Definition set_allowed_recipients (v : gset string) (s : SmtpProtocol) : SmtpProtocol :=
  mkSmtpProtocol (_fqdn s) (_state s) (connection_open s) (connection_closed s)
    (_read_mode s) (_helo s) (_sender s) (_recipients s)
    v (_is_esmtp s) (_max_size s) (_message_size s)
    (_recipients_truncated s).

Definition set_is_esmtp (v : bool) (s : SmtpProtocol) : SmtpProtocol :=
  mkSmtpProtocol (_fqdn s) (_state s) (connection_open s) (connection_closed s)
    (_read_mode s) (_helo s) (_sender s) (_recipients s)
    (_allowed_recipients s) v (_max_size s) (_message_size s)
    (_recipients_truncated s).

Definition set_max_size (v : option Z) (s : SmtpProtocol) : SmtpProtocol :=
  mkSmtpProtocol (_fqdn s) (_state s) (connection_open s) (connection_closed s)
    (_read_mode s) (_helo s) (_sender s) (_recipients s)
    (_allowed_recipients s) (_is_esmtp s) v (_message_size s)
    (_recipients_truncated s).

Definition set_message_size (v : option Z) (s : SmtpProtocol) : SmtpProtocol :=
  mkSmtpProtocol (_fqdn s) (_state s) (connection_open s) (connection_closed s)
    (_read_mode s) (_helo s) (_sender s) (_recipients s)
    (_allowed_recipients s) (_is_esmtp s) (_max_size s) v
    (_recipients_truncated s).

Definition set_recipients_truncated (v : bool) (s : SmtpProtocol) : SmtpProtocol :=
  mkSmtpProtocol (_fqdn s) (_state s) (connection_open s) (connection_closed s)
    (_read_mode s) (_helo s) (_sender s) (_recipients s)
    (_allowed_recipients s) (_is_esmtp s) (_max_size s) (_message_size s)
    v.

(** ** Exceptions, observable calls and the coroutine monad *)

Inductive exn :=
| KeyError
| AttributeError
| IndexError
| InvalidStateError
| UnicodeDecodeError
| HeaderParseError
| TooMuchDataError
| CancelledError
| TransportError.

#[export] Instance exn_eq_dec : EqDecision exn.
Proof. solve_decision. Defined.

(** What a coroutine does to the outside world, in order:
    [writer.write(b)], a completed [await writer.drain()], a call of
    [handler.verify], and the scheduling of [handler.message_received]. *)
Inductive effect :=
| Write (b : bytes)
| Drain
| Verify (candidate : bytes)
| Deliver (sender : option bytes) (recipients : list bytes) (data : bytes).

Inductive res (A : Type) := Returned (a : A) | Raised (e : exn).
Arguments Returned {A} a.
Arguments Raised {A} e.

Record outcome (A : Type) := Outcome {
  result : res A;
  final : SmtpProtocol;
  effects : list effect
}.
Arguments Outcome {A} _ _ _.
Arguments result {A} _.
Arguments final {A} _.
Arguments effects {A} _.

Definition M (A : Type) : Type := SmtpProtocol -> outcome A.

Definition ret {A} (a : A) : M A := fun s => Outcome (Returned a) s [].

Definition raise {A} (e : exn) : M A := fun s => Outcome (Raised e) s [].

Definition bind {A B} (m : M A) (k : A -> M B) : M B :=
  fun s =>
    let o := m s in
    match result o with
    | Raised e => Outcome (Raised e) (final o) (effects o)
    | Returned a =>
        let o' := k a (final o) in
        Outcome (result o') (final o') (effects o ++ effects o')
    end.

Definition get : M SmtpProtocol := fun s => Outcome (Returned s) s [].

Definition modify (f : SmtpProtocol -> SmtpProtocol) : M unit :=
  fun s => Outcome (Returned tt) (f s) [].

Definition emit (e : effect) : M unit :=
  fun s => Outcome (Returned tt) s [e].

Definition lift {A} (r : res A) : M A :=
  fun s => Outcome r s [].

(** [try: body / except Exception: pass]. *)
Definition try_pass (body : M unit) : M unit :=
  fun s =>
    let o := body s in
    Outcome (Returned tt) (final o) (effects o).

Declare Scope coro_scope.
Delimit Scope coro_scope with coro.
Notation "'let*' x := m 'in' k" := (bind m (fun x => k))
  (at level 10, x name, m at level 100, k at level 200) : coro_scope.
Notation "m ;; k" := (bind m (fun _ => k))
  (at level 100, k at level 200, right associativity) : coro_scope.
Local Open Scope coro_scope.

Definition raised {A} (o : outcome A) : option exn :=
  match result o with Raised e => Some e | Returned _ => None end.

(** The responses a coroutine emitted: one per completed [send], that
    is, a write followed by its drain. *)
Fixpoint responses (fx : list effect) : list bytes :=
  match fx with
  | Write b :: rest =>
      match rest with
      | Drain :: _ => b :: responses rest
      | _ => responses rest
      end
  | _ :: rest => responses rest
  | [] => []
  end.

(** ** Collaborators *)

(** The result of [get_angle_addr] or [get_addr_spec] of the [email]
    package: an exception (of the call, or of reading and encoding the
    token's [addr_spec]), or a token and the unparsed rest.  A falsy
    token is [None]; otherwise the token's [addr_spec] is kept. *)
Inductive parse_result :=
| ParseRaises (e : exn)
| Parsed (addr_spec : option string) (rest : string).

Class AddressParser := {
  get_angle_addr : string -> parse_result;
  get_addr_spec : string -> parse_result
}.

(** The delivery handler: the awaited result of [handler.verify]. *)
Class Handler := {
  verify : bytes -> option bytes
}.

(** The stream writer's transport at close time.  A [Raised] result
    stands for an exception of the call or of awaiting its value. *)
Class Transport := {
  can_write_eof : SmtpProtocol -> res bool;
  write_eof : SmtpProtocol -> res unit;
  writer_close : SmtpProtocol -> res unit
}.

(** What the stream reader hands to a pending read. *)
Inductive read_result :=
| Got (b : bytes)
| TooMuchData
| Cancelled.

(** ** Helpers of the protocol class that do not touch the session *)

(** [Future.set_result]: a future accepts a result once. *)
Definition set_result {A} (f : future A) (v : A) : res (future A) :=
  match f with
  | Pending => Returned (Done v)
  | Done _ => Raised InvalidStateError
  end.

Definition strip_keyword (line keyword : bytes) : bytes :=
  if Bytes.startswith (Bytes.upper line) (Bytes.upper keyword)
  then Bytes.strip (Bytes.slice_from (Z.of_nat (String.length keyword)) line)
  else "".

(** [split_command]: [line.strip()] needs a [bytes] object, and with a
    space in the argument the second component is [arg[ix + 1].strip()],
    the [strip] attribute of an [int]. *)
Definition split_command (line : option bytes) : res (bytes * option bytes) :=
  match line with
  | None => Raised AttributeError
  | Some line =>
      let arg := Bytes.strip line in
      let ix := Bytes.find arg " " in
      if 0 <=? ix then
        match Bytes.item arg (ix + 1) with
        | None => Raised IndexError
        | Some _ => Raised AttributeError
        end
      else Returned (arg, None)
  end.

(** A [dict] with [bytes] keys, iterated in insertion order. *)
Definition dict := list (bytes * bytes).

Fixpoint dict_set (k v : bytes) (d : dict) : dict :=
  match d with
  | [] => [(k, v)]
  | (k', v') :: rest =>
      if String.eqb k' k then (k', v) :: rest else (k', v') :: dict_set k v rest
  end.

Fixpoint dict_del (k : bytes) (d : dict) : dict :=
  match d with
  | [] => []
  | (k', v') :: rest =>
      if String.eqb k' k then rest else (k', v') :: dict_del k rest
  end.

Fixpoint parse_pairs (pairs : list bytes) (params : dict) : option dict :=
  match pairs with
  | [] => Some params
  | pair_ :: rest =>
      let ix := Bytes.find pair_ "=" in
      if ix <? 0 then None
      else
        let key := Bytes.slice_to ix pair_ in
        let value := Bytes.slice_from (ix + 1) pair_ in
        parse_pairs rest (dict_set key value params)
  end.

Definition parse_mail_params (param_line : bytes) : option dict :=
  parse_pairs (Bytes.split " " param_line) [].

Definition is_open (self : SmtpProtocol) : bool :=
  bool_decide (_state self = STATE_OPEN).

(** [__init__]: the configured [max_size] is stored and then the block
    of transaction attributes, which assigns [_max_size] again, runs. *)
Definition __init__ (fqdn : bytes) (max_size : option Z) : SmtpProtocol :=
  let self :=
    {| connection_open := Pending;
       connection_closed := Pending;
       _fqdn := fqdn;
       _max_size := max_size;
       _state := STATE_CONNECTING;
       _read_mode := READ_MODE_COMMAND;
       _helo := None;
       _sender := None;
       _recipients := [];
       _allowed_recipients := ∅;
       _is_esmtp := false;
       _message_size := None;
       _recipients_truncated := false |} in
  let self := set_max_size None self in
  if is_open self then set_connection_open (Done true) self else self.

Definition reset_state (self : SmtpProtocol) : SmtpProtocol :=
  let self := set_read_mode READ_MODE_COMMAND self in
  let self := set_helo None self in
  let self := set_sender None self in
  let self := set_recipients [] self in
  let self := set_allowed_recipients ∅ self in
  let self := set_is_esmtp false self in
  let self := set_max_size None self in
  let self := set_message_size None self in
  set_recipients_truncated false self.

Definition expect_data : M unit := modify (set_read_mode READ_MODE_DATA).

(** Defined by the class; no method calls it. *)
Definition expect_command : M unit := modify (set_read_mode READ_MODE_COMMAND).

Definition client_connected : M unit :=
  modify (set_state STATE_OPEN) ;;
  let* self := get in
  let* f := lift (set_result (connection_open self) true) in
  modify (set_connection_open f).

Definition connection_lost : M unit :=
  modify (set_state STATE_CLOSED) ;;
  let* self := get in
  let* f := lift (set_result (connection_closed self) tt) in
  modify (set_connection_closed f).

(** The line [send] writes: the terminator is appended when missing. *)
Definition terminated (line : bytes) : bytes :=
  if negb (Bytes.endswith line LINE_TERM) then line +:+ LINE_TERM else line.

Definition send (line : bytes) : M unit :=
  let line := terminated line in
  emit (Write line) ;;
  emit Drain.

(** ** A concrete set of collaborators

    Stand-ins for the external collaborators, used to run the protocol
    on concrete sessions: a parser for the plain forms [<local@domain>]
    and [local@domain] followed by optional parameter text, a handler
    that resolves bracketed candidates, and a transport that fails once
    the peer is gone. *)

Module Sample.

Fixpoint until (stop : ascii) (s : string) : option (string * string) :=
  match s with
  | EmptyString => None
  | String c r =>
      if Ascii.eqb c stop then Some (EmptyString, r)
      else match until stop r with
           | Some (a, rest) => Some (String c a, rest)
           | None => None
           end
  end.

Definition angle_addr (s : string) : parse_result :=
  match Bytes.lstrip s with
  | String "<" r =>
      match until ">" r with
      | Some (a, rest) => Parsed (Some a) (Bytes.lstrip rest)
      | None => ParseRaises HeaderParseError
      end
  | _ => ParseRaises HeaderParseError
  end.

Definition addr_spec (s : string) : parse_result :=
  match until " " s with
  | Some (EmptyString, _) => ParseRaises HeaderParseError
  | Some (a, rest) => Parsed (Some a) (Bytes.lstrip rest)
  | None => Parsed (Some s) EmptyString
  end.

Definition parser : AddressParser :=
  {| get_angle_addr := angle_addr; get_addr_spec := addr_spec |}.

Definition handler : Handler :=
  {| verify := fun candidate =>
       if Bytes.startswith candidate "<" then Some candidate else None |}.

Definition transport : Transport :=
  {| can_write_eof := fun _ => Returned true;
     write_eof := fun self =>
       if done (connection_closed self) then Raised TransportError
       else Returned tt;
     writer_close := fun self =>
       if done (connection_closed self) then Raised TransportError
       else Returned tt |}.

End Sample.

(** ** The protocol class *)

Section Protocol.

Context {parser : AddressParser} {handler : Handler} {transport : Transport}.

(** [parse_addr]: returns [(b'', b'')] on an empty argument,
    [(None, rest)] on a falsy token, else the encoded [addr_spec] and
    rest; [str(maybe_addr, 'ascii')] raises on a byte above 127. *)
Definition parse_addr (maybe_addr : bytes) : res (option bytes * bytes) :=
  if Bytes.is_empty maybe_addr then Returned (Some "", "")
  else if negb (Bytes.is_ascii maybe_addr) then Raised UnicodeDecodeError
  else
    let parsed :=
      if Bytes.startswith (Bytes.lstrip maybe_addr) "<"
      then get_angle_addr maybe_addr
      else get_addr_spec maybe_addr in
    match parsed with
    | ParseRaises e => Raised e
    | Parsed None rest => Returned (None, rest)
    | Parsed (Some address) rest => Returned (Some address, rest)
    end.

Definition close : M unit :=
  try_pass
    (let* self := get in
     let* can := lift (can_write_eof self) in
     if can then lift (write_eof self) else ret tt) ;;
  try_pass
    (let* self := get in
     lift (writer_close self)) ;;
  let* self := get in
  let* f := lift (set_result (connection_closed self) tt) in
  modify (set_connection_closed f).

(** *** SMTP commands *)

Definition helo (arg : option bytes) : M unit :=
  let* self := get in
  if truthy_bytes (_helo self) then send "503 Duplicate HELO/EHLO"
  else if negb (truthy_bytes arg) then send "501 Syntax: HELO hostname"
  else
    modify (set_is_esmtp false) ;;
    modify (set_helo arg) ;;
    send ("250 " +:+ _fqdn self).

Definition ehlo (arg : option bytes) : M unit :=
  let* self := get in
  if truthy_bytes (_helo self) then send "503 Duplicate HELO/EHLO"
  else
    let* split := lift (split_command arg) in
    let helo := fst split in
    if Bytes.is_empty helo then send "501 Syntax: EHLO hostname"
    else
      modify (set_is_esmtp true) ;;
      modify (set_helo (Some helo)) ;;
      let resp_lines := ["250-" +:+ _fqdn self] in
      let resp_lines :=
        if truthy_int (_max_size self)
        then (resp_lines ++ ["250-SIZE " +:+ Bytes.of_int (default 0 (_max_size self))])%list
        else resp_lines in
      let resp_lines := (resp_lines ++ ["250 HELP"])%list in
      send (Bytes.join LINE_TERM resp_lines).

(** [vrfy]: the reply on a missing argument is a bare [writer.write];
    after a handler lookup the [send] coroutine is created and never
    awaited, so it writes nothing. *)
Definition vrfy (arg : option bytes) : M unit :=
  match arg with
  | None => emit (Write "501 Syntax: VRFY <")
  | Some arg =>
      let* self := get in
      if bool_decide (arg ∈ _allowed_recipients self) then
        send "252 Cannot verify user, but will accept message and attempt delivery"
      else
        emit (Verify arg) ;;
        let result := verify arg in
        if truthy_bytes result then
          modify (fun self =>
            set_allowed_recipients
              ({[ default "" result ]} ∪ _allowed_recipients self) self)
        else ret tt
  end.

Definition rset (arg : option bytes) : M unit :=
  modify reset_state ;;
  send "250 Ok".

(** How the loop over the MAIL parameters ends: by [return] after the
    552 reply, or by running out of items or [break], with the
    parameters that are left. *)
Inductive loop_exit := LoopReturn | LoopEnd (params : dict).

Fixpoint mail_params_loop (items : list (bytes * bytes)) (params : dict)
  : M loop_exit :=
  match items with
  | [] => ret (LoopEnd params)
  | (k, v) :: rest =>
      if String.eqb (Bytes.upper k) "SIZE" then
        match Bytes.to_int v with
        | None => ret (LoopEnd params)
        | Some n =>
            let* self := get in
            if (truthy_int (_max_size self)
                && (default 0 (_max_size self) <=? n))%bool
            then
              send "552 Message size exceeds fixed maximium message size" ;;
              ret LoopReturn
            else
              modify (set_message_size (Some n)) ;;
              mail_params_loop rest (dict_del k params)
        end
      else mail_params_loop rest params
  end.

Definition mail (arg : option bytes) : M unit :=
  let* self := get in
  if negb (truthy_bytes arg) then send "501 Syntax: MAIL FROM:<address>"
  else if negb (truthy_bytes (_helo self)) then send "503 Error: Send HELO first"
  else if truthy_bytes (_sender self) then send "503 Error: Nested MAIL command"
  else
    let arg := strip_keyword (default "" arg) "FROM:" in
    let* parsed := lift (parse_addr arg) in
    let addr := fst parsed in
    let params := snd parsed in
    if negb (truthy_bytes addr) then send "501 Syntax: MAIL FROM: <address>"
    else if (negb (_is_esmtp self) && negb (Bytes.is_empty params))%bool
    then send "501 Syntax: MAIL FROM: <address>"
    else if negb (Bytes.is_empty params) then
      match parse_mail_params params with
      | None => send "501 Syntax: MAIL FROM: <address>"
      | Some [] => send "501 Syntax: MAIL FROM: <address>"
      | Some params =>
          let* ended := mail_params_loop params params in
          match ended with
          | LoopReturn => ret tt
          | LoopEnd (_ :: _) => send "555 Unrecognized extension"
          | LoopEnd [] =>
              modify (set_sender addr) ;;
              send "250 Ok"
          end
      end
    else
      modify (set_sender addr) ;;
      send "250 Ok".

Definition rcpt (arg : option bytes) : M unit :=
  let* self := get in
  if negb (truthy_bytes (_helo self)) then send "503 Error: Send HELO first"
  else if negb (truthy_bytes (_sender self)) then send "503 Error: Send MAIL first"
  else if negb (truthy_bytes arg) then send "501 Syntax: RCPT <address>"
  else
    let arg := strip_keyword (default "" arg) "TO:" in
    let* parsed := lift (parse_addr arg) in
    let addr := fst parsed in
    let params := snd parsed in
    if negb (truthy_bytes addr) then send "501 Syntax: RCPT <address>"
    else if negb (Bytes.is_empty params) then send "555 Unrecognized extension"
    else
      let append :=
        modify (fun self =>
          set_recipients (_recipients self ++ [default "" addr])%list self) ;;
        send "250 Ok" in
      if (truthy_int (_message_size self) && truthy_int (_max_size self))%bool
      then
        let max_size := default 0 (_max_size self) in
        let nrecips := Z.of_nat (length (_recipients self)) + 1 in
        let total_size := max_size * nrecips in
        if max_size <=? total_size then
          modify (set_recipients_truncated true) ;;
          send ("552 Channel size limit exceeded: " +:+ default "" addr)
        else append
      else append.

Definition data (arg : option bytes) : M unit :=
  let* self := get in
  if truthy_bytes arg then send "501 Syntax: Data"
  else if negb (truthy_bytes (_helo self)) then send "503 Error: Send HELO first"
  else if negb (truthy_bytes (_sender self)) then send "503 Error: Send MAIL first"
  else if negb (truthy_list (_recipients self)) then send "503 Error: Need RCPT command"
  else
    expect_data ;;
    send "354 End data with <CRLF>.<CRLF>".

Definition noop (arg : option bytes) : M unit :=
  if truthy_bytes arg then send "501 Syntax: NOOP" else send "250 Ok".

Definition quit (arg : option bytes) : M unit :=
  if truthy_bytes arg then send "501 Syntax: QUIT"
  else
    send "221 Ok" ;;
    close.

Definition expn (arg : option bytes) : M unit :=
  send "502 Unimplemented".

(** *** Dispatch *)

Definition method := option bytes -> M unit.

Definition COMMANDS : list (bytes * method) :=
  [ ("HELO", helo); ("EHLO", ehlo); ("VRFY", vrfy); ("EXPN", expn);
    ("RSET", rset); ("MAIL", mail); ("RCPT", rcpt); ("DATA", data);
    ("NOOP", noop); ("QUIT", quit) ].

(** [d[key]]: a missing key raises [KeyError]. *)
Fixpoint getitem (d : list (bytes * method)) (key : bytes) : res method :=
  match d with
  | [] => Raised KeyError
  | (k, m) :: rest => if String.eqb k key then Returned m else getitem rest key
  end.

(** A function object is always true. *)
Definition truthy_method (m : method) : bool := true.

(** The [cmd] and [arg] that [handle_command] computes from a line. *)
Definition command_of (line : bytes) : bytes * option bytes :=
  let ix := Bytes.find line " " in
  if 0 <? ix
  then (Bytes.slice_to ix line, Some (Bytes.strip (Bytes.slice_from ix line)))
  else (Bytes.strip line, None).

Definition handle_command (line : bytes) : M unit :=
  let cmd := fst (command_of line) in
  let arg := snd (command_of line) in
  let* method := lift (getitem COMMANDS (Bytes.upper cmd)) in
  if truthy_method method then method arg
  else send "500 PEBKAC".

(** *** Reading *)

Definition handle_data (data : bytes) : M unit :=
  let* self := get in
  if (truthy_int (_max_size self)
      && (default 0 (_max_size self) <=? Z.of_nat (String.length data)))%bool
  then send "522 Message exceeds fixed maximum size"
  else
    emit (Deliver (_sender self) (_recipients self) data) ;;
    let response :=
      if _recipients_truncated self then "250 Some recipients ok" else "250 Ok" in
    modify reset_state ;;
    send response.

Definition read_command (r : read_result) : M unit :=
  match r with
  | TooMuchData => send "500 Line too long"
  | Cancelled => raise CancelledError
  | Got line => handle_command line
  end.

Definition read_data (r : read_result) : M unit :=
  match r with
  | TooMuchData => send "552 Message exceeds fixed maximum size"
  | Cancelled => raise CancelledError
  | Got data => handle_data data
  end.

(** One turn of the loop body of [run]. *)
Definition session_step (r : read_result) : M unit :=
  let* self := get in
  match _read_mode self with
  | READ_MODE_COMMAND => read_command r
  | READ_MODE_DATA => read_data r
  end.

(** What happens while [run] is suspended: the reader completes the
    pending read, or the transport reports the disconnect by calling
    [connection_lost]. *)
Inductive event :=
| Read (r : read_result)
| ConnectionLost.

Inductive run_status := AwaitingOpen | AwaitingRead | LoopExited | RunFinished.

(** [try: body / except asyncio.CancelledError: break]. *)
Definition breaks_on_cancel (body : M unit) : M bool :=
  fun s =>
    let o := body s in
    match result o with
    | Raised CancelledError => Outcome (Returned true) (final o) (effects o)
    | Raised e => Outcome (Raised e) (final o) (effects o)
    | Returned _ => Outcome (Returned false) (final o) (effects o)
    end.

Fixpoint run_loop (events : list event) : M run_status :=
  let* self := get in
  if done (connection_closed self) then ret LoopExited
  else
    match events with
    | [] => ret AwaitingRead
    | ConnectionLost :: rest =>
        (* a callback of the event loop: what it raises does not
           reach the coroutine *)
        try_pass connection_lost ;;
        run_loop rest
    | Read r :: rest =>
        let* broke := breaks_on_cancel (session_step r) in
        if broke then ret LoopExited else run_loop rest
    end.

Definition run (events : list event) : M run_status :=
  let* self := get in
  if negb (done (connection_open self)) then ret AwaitingOpen
  else
    send ("220 " +:+ _fqdn self +:+ " ESMTP") ;;
    let* status := run_loop events in
    match status with
    | LoopExited => close ;; ret RunFinished
    | other => ret other
    end.

(** *** Sessions and their histories *)

(** A session whose streams are ready: [__init__] followed by the
    [client_connected] callback. *)
Definition connected (fqdn : bytes) (max_size : option Z) : SmtpProtocol :=
  final (client_connected (__init__ fqdn max_size)).

(** The session objects that can arise: construction, the callbacks
    of the transport, turns of the loop of [run], and [close]. *)
Inductive reachable : SmtpProtocol -> Prop :=
| reach_init fqdn max_size : reachable (__init__ fqdn max_size)
| reach_connected s : reachable s -> reachable (final (client_connected s))
| reach_step s r : reachable s -> reachable (final (session_step r s))
| reach_lost s : reachable s -> reachable (final (connection_lost s))
| reach_close s : reachable s -> reachable (final (close s)).

(** The session after the loop has taken the given reads in turn. *)
Definition after (inputs : list read_result) (s : SmtpProtocol) : SmtpProtocol :=
  fold_left (fun s r => final (session_step r s)) inputs s.

(** One turn of the loop: the session before it, what was read, and
    what the turn did. *)
Record entry := Entry {
  before : SmtpProtocol;
  input : read_result;
  out : outcome unit
}.

(** The history of the loop of [run] on a sequence of reads, oldest
    turn first; the loop ends when the closing future is done, and an
    exception leaves it. *)
Fixpoint exec (s : SmtpProtocol) (inputs : list read_result) : list entry :=
  match inputs with
  | [] => []
  | r :: rest =>
      if done (connection_closed s) then []
      else
        let o := session_step r s in
        Entry s r o ::
          match result o with
          | Returned _ => exec (final o) rest
          | Raised _ => []
          end
  end.

(** The turn dispatched the command [name]. *)
Definition ran (name : bytes) (e : entry) : bool :=
  match _read_mode (before e), input e with
  | READ_MODE_COMMAND, Got line =>
      String.eqb name (Bytes.upper (fst (command_of line)))
  | _, _ => false
  end.

(** A response that starts with [code] was sent. *)
Definition sent_code (code : bytes) (o : outcome unit) : bool :=
  existsb (fun b => Bytes.startswith b code) (responses (effects o)).

Definition replied (code : bytes) (e : entry) : bool := sent_code code (out e).

Definition greeting_ok (e : entry) : bool :=
  ((ran "HELO" e || ran "EHLO" e) && replied "250" e)%bool.

Definition mail_ok (e : entry) : bool := (ran "MAIL" e && replied "250" e)%bool.

Definition rcpt_ok (e : entry) : bool := (ran "RCPT" e && replied "250" e)%bool.

(** The turn ended a transaction: an [RSET], or a completed data phase. *)
Definition resets (e : entry) : bool :=
  (ran "RSET" e
   || match _read_mode (before e) with
      | READ_MODE_DATA => replied "250" e
      | READ_MODE_COMMAND => false
      end)%bool.

Definition no_reset (l : list entry) : bool := forallb (fun e => negb (resets e)) l.

(** ** Properties *)

(** *** Equations of the coroutine monad *)

Lemma outcome_eta {A} (o : outcome A) :
  Outcome (result o) (final o) (effects o) = o.
Proof. destruct o; reflexivity. Qed.

Lemma bind_get {B} (k : SmtpProtocol -> M B) (s : SmtpProtocol) :
  bind get k s = k s s.
Proof. unfold bind, get; simpl. apply outcome_eta. Qed.

Lemma bind_modify {B} (f : SmtpProtocol -> SmtpProtocol) (k : unit -> M B)
    (s : SmtpProtocol) :
  bind (modify f) k s = k tt (f s).
Proof. unfold bind, modify; simpl. apply outcome_eta. Qed.

Lemma bind_lift_returned {A B} (a : A) (k : A -> M B) (s : SmtpProtocol) :
  bind (lift (Returned a)) k s = k a s.
Proof. unfold bind, lift; simpl. apply outcome_eta. Qed.

Lemma bind_lift_raised {A B} (e : exn) (k : A -> M B) (s : SmtpProtocol) :
  bind (lift (Raised e)) k s = Outcome (Raised e) s [].
Proof. reflexivity. Qed.

Lemma bind_emit {B} (e : effect) (k : unit -> M B) (s : SmtpProtocol) :
  bind (emit e) k s
  = Outcome (result (k tt s)) (final (k tt s)) (e :: effects (k tt s)).
Proof. reflexivity. Qed.

Lemma bind_returned {A B} (m : M A) (k : A -> M B) (s : SmtpProtocol)
    (a : A) (s' : SmtpProtocol) (fx : list effect) :
  m s = Outcome (Returned a) s' fx ->
  bind m k s
  = Outcome (result (k a s')) (final (k a s')) (fx ++ effects (k a s')).
Proof. intros Hm. unfold bind. rewrite Hm. reflexivity. Qed.

Lemma bind_raised {A B} (m : M A) (k : A -> M B) (s : SmtpProtocol)
    (e : exn) (s' : SmtpProtocol) (fx : list effect) :
  m s = Outcome (Raised e) s' fx ->
  bind m k s = Outcome (Raised e) s' fx.
Proof. intros Hm. unfold bind. rewrite Hm. reflexivity. Qed.

Lemma send_eq (line : bytes) (s : SmtpProtocol) :
  send line s = Outcome (Returned tt) s [Write (terminated line); Drain].
Proof. reflexivity. Qed.

Lemma bind_send {B} (line : bytes) (k : unit -> M B) (s : SmtpProtocol) :
  bind (send line) k s
  = Outcome (result (k tt s)) (final (k tt s))
      (Write (terminated line) :: Drain :: effects (k tt s)).
Proof. reflexivity. Qed.

Lemma handle_command_eq (line cmd : bytes) (arg : option bytes) (m : method)
    (s : SmtpProtocol) :
  command_of line = (cmd, arg) ->
  getitem COMMANDS (Bytes.upper cmd) = Returned m ->
  handle_command line s = m arg s.
Proof.
  intros Hc Hm. unfold handle_command. rewrite Hc. simpl fst. simpl snd.
  rewrite Hm, bind_lift_returned. reflexivity.
Qed.

(** Evaluation of the Python truth tests on known values. *)
Ltac truth :=
  cbn [truthy_bytes truthy_int truthy_list Bytes.is_empty negb andb orb
       default from_option id fst snd done].

(** Case analysis on every remaining test. *)
Ltac branches :=
  repeat match goal with
         | |- context [if ?b then _ else _] => destruct b
         end.

(** *** Dispatch (C1) *)

Lemma getitem_missing (d : list (bytes * method)) (key : bytes) :
  key ∉ d.*1 -> getitem d key = Raised KeyError.
Proof.
  induction d as [|[k m] d IH]; simpl; [reflexivity|].
  rewrite not_elem_of_cons. intros [Hne Hrest].
  destruct (String.eqb_spec k key) as [->|_]; [congruence|].
  apply IH, Hrest.
Qed.

(** C1.  A line whose keyword is not a key of the dispatch table makes
    [handle_command] raise [KeyError] at the table lookup: nothing is
    written (no 500 response), and the session is left as it was. *)
Theorem unknown_command_raises_KeyError (line : bytes) (s : SmtpProtocol) :
  Bytes.upper (command_of line).1 ∉ COMMANDS.*1 ->
  handle_command line s = Outcome (Raised KeyError) s [].
Proof.
  intros Hmiss. unfold handle_command, bind, lift.
  rewrite (getitem_missing _ _ Hmiss). reflexivity.
Qed.

(** The exception is not handled by the loop of [run] either: the
    coroutine ends with it after the greeting alone. *)
Lemma run_unknown_command (fqdn : bytes) (max_size : option Z) :
  let o := run [Read (Got "BOGUS")] (connected fqdn max_size) in
  result o = Raised KeyError /\ responses (effects o) = [terminated ("220 " +:+ fqdn +:+ " ESMTP")].
Proof. split; reflexivity. Qed.

(** *** Capabilities (C2) *)

(** C2.  A session constructed with a maximum size [n] answers a
    successful EHLO with the domain line and the HELP line only: no
    [SIZE] capability line is sent, whatever [n] was configured. *)
Theorem ehlo_omits_configured_size (n : Z) :
  ehlo (Some "example.com") (connected "localhost" (Some n))
  = Outcome (Returned tt)
      (set_helo (Some "example.com")
         (set_is_esmtp true (connected "localhost" (Some n))))
      [Write ("250-localhost" +:+ LINE_TERM +:+ "250 HELP" +:+ LINE_TERM); Drain].
Proof. reflexivity. Qed.

(** The configured value does not survive construction. *)
Lemma init_discards_max_size (fqdn : bytes) (max_size : option Z) :
  _max_size (__init__ fqdn max_size) = None.
Proof. reflexivity. Qed.

(** A successful HELO is answered by one line. *)
Lemma helo_reply (s : SmtpProtocol) (host : bytes) :
  truthy_bytes (_helo s) = false -> host <> "" ->
  effects (helo (Some host) s) = [Write (terminated ("250 " +:+ _fqdn s)); Drain].
Proof.
  intros Hh Hhost. unfold helo, bind, get. simpl. rewrite Hh.
  destruct host; [congruence|]. reflexivity.
Qed.

(** *** One response per command (C3) *)

(** C3.  On a fresh session, [VRFY <z@y>] reaches the handler lookup
    and returns without having written anything, whether or not the
    handler resolves the address: no response is emitted. *)
Theorem vrfy_lookup_emits_no_response (fqdn : bytes) (max_size : option Z) :
  let o := handle_command "VRFY <z@y>" (connected fqdn max_size) in
  result o = Returned tt /\
  effects o = [Verify "<z@y>"] /\
  responses (effects o) = [].
Proof.
  rewrite (handle_command_eq _ "VRFY" (Some "<z@y>") vrfy) by reflexivity.
  unfold vrfy. rewrite bind_get.
  rewrite bool_decide_eq_false_2 by (simpl; set_solver).
  rewrite bind_emit.
  destruct (truthy_bytes (verify "<z@y>")); simpl; auto.
Qed.

(** Without an argument VRFY writes an unterminated chunk and does
    not drain: no complete response either. *)
Lemma vrfy_without_argument (s : SmtpProtocol) :
  handle_command "VRFY" s = Outcome (Returned tt) s [Write "501 Syntax: VRFY <"].
Proof. reflexivity. Qed.

(** An EHLO argument with a space raises in [split_command]. *)
Lemma ehlo_with_space_raises (fqdn : bytes) (max_size : option Z) :
  let s := connected fqdn max_size in
  handle_command "EHLO example.com extra" s = Outcome (Raised AttributeError) s [].
Proof. reflexivity. Qed.

(** *** Close (C5) *)

(** Whatever the transport does, [close] comes down to the
    [set_result] on the closing future. *)
Lemma close_eq (s : SmtpProtocol) :
  close s =
  match connection_closed s with
  | Pending => Outcome (Returned tt) (set_connection_closed (Done tt) s) []
  | Done _ => Outcome (Raised InvalidStateError) s []
  end.
Proof.
  unfold close, bind, try_pass, get, lift, modify, ret. simpl.
  destruct (can_write_eof s) as [[|]|]; simpl;
    try destruct (write_eof s); simpl;
    destruct (writer_close s); simpl;
    destruct (connection_closed s); reflexivity.
Qed.

Lemma close_final (s : SmtpProtocol) :
  done (connection_closed (final (close s))) = true.
Proof.
  rewrite close_eq.
  destruct (connection_closed s) eqn:E; simpl; [reflexivity|].
  rewrite E. reflexivity.
Qed.

Lemma close_when_done (s : SmtpProtocol) :
  done (connection_closed s) = true ->
  close s = Outcome (Raised InvalidStateError) s [].
Proof.
  rewrite close_eq. destruct (connection_closed s); [discriminate|reflexivity].
Qed.

Lemma connection_lost_final (s : SmtpProtocol) :
  done (connection_closed (final (connection_lost s))) = true.
Proof.
  unfold connection_lost, bind, get, lift, modify. simpl.
  destruct (connection_closed s) eqn:E; simpl; [reflexivity|].
  rewrite E. reflexivity.
Qed.

(** C5.  [close] raises [InvalidStateError] when it is invoked a
    second time, and when it is invoked after [connection_lost]: the
    closing future already has its result. *)
Theorem close_again_raises (s : SmtpProtocol) :
  raised (close (final (close s))) = Some InvalidStateError /\
  raised (close (final (connection_lost s))) = Some InvalidStateError.
Proof.
  split.
  - rewrite close_when_done by apply close_final. reflexivity.
  - rewrite close_when_done by apply connection_lost_final. reflexivity.
Qed.

(** X19.  On a session that is not closed yet, whatever the transport
    raises in [can_write_eof], [write_eof] or [close] is swallowed:
    [close] returns, marks the closing future done, writes nothing and
    changes nothing else. *)
Lemma close_suppresses_transport_errors (s : SmtpProtocol) :
  done (connection_closed s) = false ->
  close s = Outcome (Returned tt) (set_connection_closed (Done tt) s) [].
Proof.
  rewrite close_eq. destruct (connection_closed s); [reflexivity|discriminate].
Qed.

(** QUIT closes, the loop of [run] exits and closes again. *)
Lemma run_quit_raises (fqdn : bytes) (max_size : option Z) :
  raised (run [Read (Got "QUIT")] (connected fqdn max_size)) = Some InvalidStateError.
Proof.
  set (s := connected fqdn max_size).
  assert (Hq : session_step (Got "QUIT") s
               = Outcome (Returned tt) (set_connection_closed (Done tt) s)
                   [Write (terminated "221 Ok"); Drain]).
  { unfold session_step. rewrite bind_get.
    change (_read_mode s) with READ_MODE_COMMAND. cbv iota.
    unfold read_command.
    rewrite (handle_command_eq _ "QUIT" None quit) by reflexivity.
    unfold quit. change (truthy_bytes None) with false. cbv iota.
    rewrite bind_send, close_eq. reflexivity. }
  assert (Hl : run_loop [Read (Got "QUIT")] s
               = Outcome (Returned LoopExited) (set_connection_closed (Done tt) s)
                   [Write (terminated "221 Ok"); Drain]).
  { unfold run_loop. rewrite bind_get.
    change (connection_closed s) with (@Pending unit). cbn [done].
    assert (Hb : breaks_on_cancel (session_step (Got "QUIT")) s
                 = Outcome (Returned false) (set_connection_closed (Done tt) s)
                     [Write (terminated "221 Ok"); Drain])
      by (unfold breaks_on_cancel; rewrite Hq; reflexivity).
    rewrite (bind_returned _ _ _ _ _ _ Hb). reflexivity. }
  unfold raised, run. rewrite bind_get.
  change (connection_open s) with (Done true). cbn [done negb].
  rewrite bind_send.
  rewrite (bind_returned _ _ s _ _ _ Hl). simpl result.
  assert (Hc : close (set_connection_closed (Done tt) s)
               = Outcome (Raised InvalidStateError)
                   (set_connection_closed (Done tt) s) [])
    by (apply close_when_done; reflexivity).
  rewrite (bind_raised _ _ _ _ _ _ Hc). reflexivity.
Qed.

(** *** The data phase (C4) *)

(** C4.  In Data read mode a length-exceeded condition of the stream
    is answered with the 552 reply and nothing else happens: the
    session object is untouched, so there is no transaction reset, but
    the read mode is still Data and not Command. *)
Theorem data_too_long_stays_in_data_mode (s : SmtpProtocol) :
  _read_mode s = READ_MODE_DATA ->
  let o := session_step TooMuchData s in
  result o = Returned tt /\
  responses (effects o) = [terminated "552 Message exceeds fixed maximum size"] /\
  final o = s /\
  _read_mode (final o) = READ_MODE_DATA.
Proof.
  intros Hm. unfold session_step. rewrite bind_get, Hm. simpl.
  repeat split; assumption.
Qed.

(** The same holds for the defensive check of [handle_data]. *)
Lemma data_block_too_large_stays_in_data_mode (s : SmtpProtocol)
    (block : bytes) (m : Z) :
  _read_mode s = READ_MODE_DATA ->
  _max_size s = Some m -> m <> 0 -> m <= Z.of_nat (String.length block) ->
  session_step (Got block) s
  = Outcome (Returned tt) s
      [Write (terminated "522 Message exceeds fixed maximum size"); Drain].
Proof.
  intros Hm Hmax Hnz Hle. unfold session_step. rewrite bind_get, Hm.
  unfold read_data, handle_data. rewrite bind_get, Hmax. simpl.
  destruct (Z.eqb_spec m 0) as [|_]; [contradiction|].
  destruct (Z.leb_spec m (Z.of_nat (String.length block))); [reflexivity|lia].
Qed.

(** A data block that passes the check completes the transaction. *)
Lemma handle_data_completes (s : SmtpProtocol) (block : bytes) :
  truthy_int (_max_size s) = false ->
  handle_data block s
  = Outcome (Returned tt) (reset_state s)
      [Deliver (_sender s) (_recipients s) block;
       Write (terminated (if _recipients_truncated s
                          then "250 Some recipients ok" else "250 Ok"));
       Drain].
Proof.
  intros Hmax. unfold handle_data. rewrite bind_get, Hmax. reflexivity.
Qed.

(** *** Transaction reset (C6) *)

(** C6, as the code has it.  A full reset (RSET, or a data block that
    passes the size check) clears the sender, the recipients, the
    declared message size, the truncation flag, the ESMTP flag and the
    greeting domain, and it also empties the set of verified addresses
    and puts the read mode back to Command; the server domain, the
    lifecycle state and the two lifecycle futures are unchanged. *)
Theorem reset_clears_transaction_and_cache (s : SmtpProtocol)
    (arg : option bytes) (block : bytes) :
  truthy_int (_max_size s) = false ->
  let s' := reset_state s in
  final (rset arg s) = s' /\
  final (handle_data block s) = s' /\
  _sender s' = None /\ _recipients s' = [] /\ _message_size s' = None /\
  _recipients_truncated s' = false /\ _is_esmtp s' = false /\
  _helo s' = None /\
  _allowed_recipients s' = ∅ /\ _read_mode s' = READ_MODE_COMMAND /\
  _fqdn s' = _fqdn s /\ _state s' = _state s /\
  connection_open s' = connection_open s /\
  connection_closed s' = connection_closed s.
Proof.
  intros Hmax s'. subst s'. rewrite (handle_data_completes _ _ Hmax).
  repeat split.
Qed.

(** *** Recipients (C8) *)


(** *** MAIL parameters (C9, C10) *)

Lemma mail_params_loop_size_then_unknown (s : SmtpProtocol) :
  _max_size s = None ->
  mail_params_loop [("SIZE", "100"); ("FOO", "bar")]
    [("SIZE", "100"); ("FOO", "bar")] s
  = Outcome (Returned (LoopEnd [("FOO", "bar")])) (set_message_size (Some 100) s) [].
Proof. intros Hmax. destruct s; simpl in Hmax; subst. reflexivity. Qed.

(** C9.  After EHLO, a MAIL whose parameters are [SIZE=100 FOO=bar]
    is rejected with 555, the sender stays unset, but the declared
    message size has been recorded: the session is not left as it
    was. *)
Theorem mail_555_records_declared_size (s : SmtpProtocol) (arg addr : bytes) :
  truthy_bytes (_helo s) = true ->
  truthy_bytes (_sender s) = false ->
  _is_esmtp s = true ->
  _max_size s = None ->
  arg <> "" -> addr <> "" ->
  parse_addr (strip_keyword arg "FROM:") = Returned (Some addr, "SIZE=100 FOO=bar") ->
  let o := mail (Some arg) s in
  result o = Returned tt /\
  responses (effects o) = [terminated "555 Unrecognized extension"] /\
  final o = set_message_size (Some 100) s /\
  _sender (final o) = _sender s /\
  _message_size (final o) = Some 100.
Proof.
  intros Hh Hs He Hmax Harg Haddr Hp. cbv zeta.
  unfold mail. rewrite bind_get, Hh, Hs, He.
  destruct arg as [|c arg]; [congruence|].
  truth.
  rewrite Hp, bind_lift_returned. truth.
  destruct addr as [|a addr]; [congruence|].
  truth.
  change (parse_mail_params "SIZE=100 FOO=bar")
    with (Some [("SIZE", "100"); ("FOO", "bar")]).
  cbv iota.
  rewrite (bind_returned _ _ _ _ _ _ (mail_params_loop_size_then_unknown s Hmax)).
  rewrite send_eq. simpl. repeat split.
Qed.

(** C10, as the code has it.  After a plain HELO (the ESMTP flag is
    off), with a greeting present and no sender accepted yet, a MAIL
    argument whose address is followed by parameter text is answered
    with the 501 syntax reply and the session object is left exactly as
    it was.  (With a sender already set the sequencing check answers
    first, with 503.) *)
Theorem mail_parameters_need_ehlo (s : SmtpProtocol) (arg : bytes)
    (addr : option bytes) (params : bytes) :
  truthy_bytes (_helo s) = true ->
  truthy_bytes (_sender s) = false ->
  _is_esmtp s = false ->
  arg <> "" ->
  parse_addr (strip_keyword arg "FROM:") = Returned (addr, params) ->
  params <> "" ->
  mail (Some arg) s
  = Outcome (Returned tt) s [Write (terminated "501 Syntax: MAIL FROM: <address>"); Drain].
Proof.
  intros Hh Hs He Harg Hp Hpar.
  unfold mail. rewrite bind_get, Hh, Hs, He.
  destruct arg as [|c arg]; [congruence|].
  truth.
  rewrite Hp, bind_lift_returned. truth.
  destruct params as [|p params]; [congruence|].
  truth.
  destruct (negb (truthy_bytes addr)); reflexivity.
Qed.

(** *** Sequencing (C7) *)

Lemma set_message_size_same (s : SmtpProtocol) :
  set_message_size (_message_size s) s = s.
Proof. destruct s; reflexivity. Qed.

(** The loop over the MAIL parameters touches [_message_size] only,
    and either returns after its 552 reply or ends silently. *)
Lemma mail_params_loop_spec (items : list (bytes * bytes)) :
  forall (params : dict) (s : SmtpProtocol),
  exists ms,
    final (mail_params_loop items params s) = set_message_size ms s /\
    ((result (mail_params_loop items params s) = Returned LoopReturn /\
      effects (mail_params_loop items params s)
      = [Write (terminated "552 Message size exceeds fixed maximium message size");
         Drain]) \/
     (exists left, result (mail_params_loop items params s) = Returned (LoopEnd left) /\
                   effects (mail_params_loop items params s) = [])).
Proof.
  induction items as [|[k v] items IH]; intros params s.
  - exists (_message_size s). rewrite set_message_size_same. simpl. eauto.
  - cbn [mail_params_loop].
    destruct (String.eqb (Bytes.upper k) "SIZE"); [|apply IH].
    destruct (Bytes.to_int v) as [n|].
    2:{ exists (_message_size s). rewrite set_message_size_same. simpl. eauto. }
    rewrite bind_get.
    destruct (truthy_int (_max_size s) && (default 0 (_max_size s) <=? n))%bool.
    + exists (_message_size s). rewrite set_message_size_same. simpl. auto.
    + rewrite bind_modify.
      destruct (IH (dict_del k params) (set_message_size (Some n) s))
        as (ms & Hf & Hr).
      exists ms. split; [rewrite Hf; reflexivity | exact Hr].
Qed.

Lemma terminated_code (line code : bytes) :
  Bytes.startswith line code = false ->
  Bytes.startswith (line +:+ LINE_TERM) code = false ->
  Bytes.startswith (terminated line) code = false.
Proof.
  intros H1 H2. unfold terminated.
  destruct (negb (Bytes.endswith line LINE_TERM)); assumption.
Qed.

(** The ways a MAIL command can end. *)
Inductive mail_end (s : SmtpProtocol) (o : outcome unit) : Prop :=
| mail_raised e :
    result o = Raised e -> final o = s -> effects o = [] -> mail_end s o
| mail_refused ms line :
    result o = Returned tt -> final o = set_message_size ms s ->
    effects o = [Write (terminated line); Drain] ->
    Bytes.startswith (terminated line) "250" = false ->
    mail_end s o
| mail_accepted ms addr :
    truthy_bytes (_helo s) = true -> truthy_bytes (_sender s) = false ->
    truthy_bytes addr = true ->
    result o = Returned tt ->
    final o = set_sender addr (set_message_size ms s) ->
    effects o = [Write (terminated "250 Ok"); Drain] ->
    mail_end s o.

Lemma mail_refusal (s : SmtpProtocol) (line : bytes) :
  Bytes.startswith line "250" = false ->
  Bytes.startswith (line +:+ LINE_TERM) "250" = false ->
  mail_end s (send line s).
Proof.
  intros H1 H2. apply (mail_refused s _ (_message_size s) line).
  - reflexivity.
  - rewrite set_message_size_same. reflexivity.
  - reflexivity.
  - apply terminated_code; assumption.
Qed.

Lemma mail_ends (arg : option bytes) (s : SmtpProtocol) : mail_end s (mail arg s).
Proof.
  unfold mail. rewrite bind_get.
  destruct (negb (truthy_bytes arg)); [apply mail_refusal; reflexivity|].
  destruct (truthy_bytes (_helo s)) eqn:Hh; truth;
    [|apply mail_refusal; reflexivity].
  destruct (truthy_bytes (_sender s)) eqn:Hs; [apply mail_refusal; reflexivity|].
  destruct (parse_addr (strip_keyword (default "" arg) "FROM:")) as [[addr params]|e].
  2:{ apply (mail_raised s _ e); reflexivity. }
  rewrite bind_lift_returned. truth.
  destruct (truthy_bytes addr) eqn:Ha; truth; [|apply mail_refusal; reflexivity].
  destruct (negb (_is_esmtp s) && negb (Bytes.is_empty params))%bool;
    [apply mail_refusal; reflexivity|].
  destruct (negb (Bytes.is_empty params)).
  2:{ rewrite bind_modify, send_eq.
      apply (mail_accepted s _ (_message_size s) addr); auto. }
  destruct (parse_mail_params params) as [[|p ps]|];
    [apply mail_refusal; reflexivity| |apply mail_refusal; reflexivity].
  destruct (mail_params_loop_spec (p :: ps) (p :: ps) s)
    as (ms & Hf & [[Hr Hfx]|(left & Hr & Hfx)]).
  - unfold bind. rewrite Hr, Hf, Hfx. simpl.
    apply (mail_refused s _ ms
             "552 Message size exceeds fixed maximium message size");
      reflexivity.
  - unfold bind. rewrite Hr, Hf, Hfx. destruct left as [|l ls]; simpl.
    + apply (mail_accepted s _ ms addr); auto.
    + apply (mail_refused s _ ms "555 Unrecognized extension"); reflexivity.
Qed.

(** *** Rejections leave the session alone

    What does hold of rejections: a handler that answers 501, 503 or
    555 leaves the session object as it was, except for the 555 of
    MAIL. *)
Definition rejected (o : outcome unit) : bool :=
  (sent_code "501" o || sent_code "503" o || sent_code "555" o)%bool.

Ltac not_rejected H :=
  exfalso; unfold rejected, sent_code, terminated in H; cbn in H;
  repeat match type of H with
         | context [if ?b then _ else _] => destruct b; cbn in H
         end;
  discriminate H.

Ltac kept_or_not_rejected :=
  let H := fresh "H" in
  intros H; first [reflexivity | not_rejected H].

Lemma helo_rejection arg s : rejected (helo arg s) = true -> final (helo arg s) = s.
Proof.
  unfold helo. rewrite bind_get.
  destruct (truthy_bytes (_helo s)); [reflexivity|].
  destruct (negb (truthy_bytes arg)); [reflexivity|].
  rewrite !bind_modify, send_eq. kept_or_not_rejected.
Qed.

Lemma ehlo_rejection arg s : rejected (ehlo arg s) = true -> final (ehlo arg s) = s.
Proof.
  unfold ehlo. rewrite bind_get.
  destruct (truthy_bytes (_helo s)); [reflexivity|].
  destruct (split_command arg) as [[host rest]|e]; [|reflexivity].
  rewrite bind_lift_returned. truth.
  destruct (Bytes.is_empty host); [reflexivity|].
  rewrite !bind_modify, send_eq.
  destruct (truthy_int (_max_size s)); kept_or_not_rejected.
Qed.

Lemma rcpt_rejection arg s : rejected (rcpt arg s) = true -> final (rcpt arg s) = s.
Proof.
  unfold rcpt. rewrite bind_get.
  destruct (negb (truthy_bytes (_helo s))); [reflexivity|].
  destruct (negb (truthy_bytes (_sender s))); [reflexivity|].
  destruct (negb (truthy_bytes arg)); [reflexivity|].
  destruct (parse_addr _) as [[addr params]|e]; [|reflexivity].
  rewrite bind_lift_returned.
  destruct (negb (truthy_bytes _)); [reflexivity|].
  destruct (negb (Bytes.is_empty _)); [reflexivity|].
  branches; rewrite bind_modify, send_eq; kept_or_not_rejected.
Qed.

Lemma data_rejection arg s : rejected (data arg s) = true -> final (data arg s) = s.
Proof.
  unfold data. rewrite bind_get. branches; try reflexivity.
  unfold expect_data. rewrite bind_modify, send_eq. kept_or_not_rejected.
Qed.

Lemma noop_rejection arg s : rejected (noop arg s) = true -> final (noop arg s) = s.
Proof. unfold noop. branches; reflexivity. Qed.

Lemma quit_rejection arg s : rejected (quit arg s) = true -> final (quit arg s) = s.
Proof.
  unfold quit. destruct (truthy_bytes arg); [reflexivity|].
  rewrite bind_send, close_eq. destruct (connection_closed s); kept_or_not_rejected.
Qed.

Lemma vrfy_rejection arg s : rejected (vrfy arg s) = true -> final (vrfy arg s) = s.
Proof.
  unfold vrfy. destruct arg as [arg|]; [|reflexivity].
  rewrite bind_get. destruct (bool_decide _); [reflexivity|].
  rewrite bind_emit. branches; kept_or_not_rejected.
Qed.

(** For MAIL this holds of the 501 and 503 replies. *)
Lemma mail_rejection arg s :
  (sent_code "501" (mail arg s) || sent_code "503" (mail arg s))%bool = true ->
  final (mail arg s) = s.
Proof.
  unfold mail. rewrite bind_get.
  destruct (negb (truthy_bytes arg)); [reflexivity|].
  destruct (negb (truthy_bytes (_helo s))); [reflexivity|].
  destruct (truthy_bytes (_sender s)); [reflexivity|].
  destruct (parse_addr _) as [[addr params]|e]; [|reflexivity].
  rewrite bind_lift_returned. truth.
  destruct (negb (truthy_bytes addr)); [reflexivity|].
  destruct (negb (_is_esmtp s) && negb (Bytes.is_empty params))%bool; [reflexivity|].
  destruct (negb (Bytes.is_empty params)).
  2:{ rewrite bind_modify, send_eq. intros H. vm_compute in H. discriminate H. }
  destruct (parse_mail_params params) as [[|p ps]|]; [reflexivity| |reflexivity].
  destruct (mail_params_loop_spec (p :: ps) (p :: ps) s)
    as (ms & Hf & [[Hr Hfx]|(left & Hr & Hfx)]).
  - unfold bind, sent_code. rewrite Hr, Hfx. intros H. vm_compute in H. discriminate H.
  - unfold bind, sent_code. rewrite Hr, Hfx.
    destruct left; intros H; vm_compute in H; discriminate H.
Qed.

(** What a command handler named [name] does to the greeting and the
    sender, and what its 250 reply tells about the session before. *)
Definition handler_facts (name : bytes) (s : SmtpProtocol) (o : outcome unit)
  : Prop :=
  (truthy_bytes (_sender (final o)) = true ->
     truthy_bytes (_sender s) = true \/
     (name = "MAIL" /\ sent_code "250" o = true)) /\
  (truthy_bytes (_helo (final o)) = true ->
     truthy_bytes (_helo s) = true \/
     ((name = "HELO" \/ name = "EHLO") /\ sent_code "250" o = true)) /\
  (name = "RSET" ->
     truthy_bytes (_sender (final o)) = false /\
     truthy_bytes (_helo (final o)) = false) /\
  (name = "RCPT" -> sent_code "250" o = true -> truthy_bytes (_sender s) = true) /\
  (name = "MAIL" -> sent_code "250" o = true -> truthy_bytes (_helo s) = true) /\
  ((truthy_bytes (_sender s) = true -> truthy_bytes (_helo s) = true) ->
   truthy_bytes (_sender (final o)) = true ->
   truthy_bytes (_helo (final o)) = true) /\
  (_max_size s = None -> _max_size (final o) = None).

Lemma unchanged_facts (name : bytes) (s : SmtpProtocol) (o : outcome unit) :
  _sender (final o) = _sender s ->
  _helo (final o) = _helo s ->
  _max_size (final o) = _max_size s ->
  name <> "RSET" -> name <> "MAIL" ->
  (name = "RCPT" -> sent_code "250" o = true -> truthy_bytes (_sender s) = true) ->
  handler_facts name s o.
Proof.
  intros Hs Hh Hx Hr Hm Hrcpt. unfold handler_facts. rewrite Hs, Hh, Hx.
  repeat split; auto; try contradiction.
Qed.

Lemma noop_facts arg s : handler_facts "NOOP" s (noop arg s).
Proof.
  apply unchanged_facts; try discriminate; unfold noop; branches; reflexivity.
Qed.

Lemma expn_facts arg s : handler_facts "EXPN" s (expn arg s).
Proof. apply unchanged_facts; try discriminate; reflexivity. Qed.

Lemma data_facts arg s : handler_facts "DATA" s (data arg s).
Proof.
  apply unchanged_facts; try discriminate;
    unfold data; rewrite bind_get; branches; reflexivity.
Qed.

Lemma vrfy_facts arg s : handler_facts "VRFY" s (vrfy arg s).
Proof.
  apply unchanged_facts; try discriminate;
    unfold vrfy; destruct arg; try reflexivity;
    rewrite bind_get; destruct (bool_decide _); try reflexivity;
    rewrite bind_emit; branches; reflexivity.
Qed.

Lemma quit_facts arg s : handler_facts "QUIT" s (quit arg s).
Proof.
  apply unchanged_facts; try discriminate;
    unfold quit; destruct (truthy_bytes arg); try reflexivity;
    rewrite bind_send, close_eq; destruct (connection_closed s); reflexivity.
Qed.

Lemma rcpt_unchanged arg s :
  _sender (final (rcpt arg s)) = _sender s /\
  _helo (final (rcpt arg s)) = _helo s /\
  _max_size (final (rcpt arg s)) = _max_size s.
Proof.
  unfold rcpt. rewrite bind_get.
  destruct (negb (truthy_bytes (_helo s))); [repeat split; reflexivity|].
  destruct (negb (truthy_bytes (_sender s))); [repeat split; reflexivity|].
  destruct (negb (truthy_bytes arg)); [repeat split; reflexivity|].
  destruct (parse_addr _) as [[addr params]|e]; [|repeat split; reflexivity].
  rewrite bind_lift_returned. branches; repeat split; reflexivity.
Qed.

Lemma rcpt_250 arg s :
  sent_code "250" (rcpt arg s) = true -> truthy_bytes (_sender s) = true.
Proof.
  unfold rcpt. rewrite bind_get.
  destruct (truthy_bytes (_helo s)); truth;
    [|intros H; vm_compute in H; discriminate].
  destruct (truthy_bytes (_sender s)); truth;
    [reflexivity|intros H; vm_compute in H; discriminate].
Qed.

Lemma rcpt_facts arg s : handler_facts "RCPT" s (rcpt arg s).
Proof.
  destruct (rcpt_unchanged arg s) as (Hs & Hh & Hx).
  apply unchanged_facts; try discriminate; auto.
  intros _. apply rcpt_250.
Qed.

Lemma rset_facts arg s : handler_facts "RSET" s (rset arg s).
Proof.
  unfold handler_facts, rset. rewrite bind_modify, send_eq. simpl.
  repeat split; try discriminate; auto.
Qed.

Lemma sent_250_terminated (line : bytes) (s : SmtpProtocol) :
  Bytes.startswith line "250" = true ->
  Bytes.startswith (line +:+ LINE_TERM) "250" = true ->
  sent_code "250"
    (Outcome (Returned tt) s [Write (terminated line); Drain]) = true.
Proof.
  intros H1 H2. unfold sent_code, terminated. simpl.
  destruct (negb (Bytes.endswith line LINE_TERM)); rewrite ?H1, ?H2; reflexivity.
Qed.

Lemma helo_facts arg s : handler_facts "HELO" s (helo arg s).
Proof.
  unfold helo. rewrite bind_get.
  destruct (truthy_bytes (_helo s)) eqn:Hh;
    [apply unchanged_facts; try discriminate; reflexivity|].
  destruct (truthy_bytes arg) eqn:Ha; truth;
    [|apply unchanged_facts; try discriminate; reflexivity].
  rewrite !bind_modify, send_eq. unfold handler_facts. simpl.
  repeat split; try discriminate; auto.
  intros _. right. split; [auto|]. apply sent_250_terminated; reflexivity.
Qed.

Lemma ehlo_facts arg s : handler_facts "EHLO" s (ehlo arg s).
Proof.
  unfold ehlo. rewrite bind_get.
  destruct (truthy_bytes (_helo s)) eqn:Hh;
    [apply unchanged_facts; try discriminate; reflexivity|].
  destruct (split_command arg) as [[host rest]|e];
    [|apply unchanged_facts; try discriminate; reflexivity].
  rewrite bind_lift_returned. truth.
  destruct (Bytes.is_empty host) eqn:He;
    [apply unchanged_facts; try discriminate; reflexivity|].
  rewrite !bind_modify, send_eq. unfold handler_facts. simpl.
  repeat split; try discriminate; auto.
  - intros _. right. split; [auto|].
    destruct (truthy_int (_max_size s)); apply sent_250_terminated; reflexivity.
  - intros _ _. rewrite He. reflexivity.
Qed.

Lemma mail_facts arg s : handler_facts "MAIL" s (mail arg s).
Proof.
  unfold handler_facts.
  destruct (mail_ends arg s) as [e Hr Hf Hfx | ms line Hr Hf Hfx Hc
                                | ms addr Hh Hs Ha Hr Hf Hfx].
  - rewrite Hf. unfold sent_code. rewrite Hfx. simpl.
    repeat split; auto; discriminate.
  - rewrite Hf. unfold sent_code. rewrite Hfx. simpl. rewrite Hc. simpl.
    repeat split; auto; discriminate.
  - rewrite Hf. unfold sent_code. rewrite Hfx. simpl.
    repeat split; auto; discriminate.
Qed.

Lemma dispatch_facts (key : bytes) (m : method) (arg : option bytes)
    (s : SmtpProtocol) :
  getitem COMMANDS key = Returned m -> handler_facts key s (m arg s).
Proof.
  unfold COMMANDS. cbn [getitem].
  repeat match goal with
         | |- context [String.eqb ?k key] =>
             destruct (String.eqb_spec k key) as [E|_];
             [subst key; intros [= <-];
              auto using helo_facts, ehlo_facts, vrfy_facts, expn_facts,
                rset_facts, mail_facts, rcpt_facts, data_facts, noop_facts,
                quit_facts|]
         end.
  discriminate.
Qed.

(** The session never holds a sender without a greeting. *)
Definition greeted_sender (s : SmtpProtocol) : Prop :=
  truthy_bytes (_sender s) = true -> truthy_bytes (_helo s) = true.

(** One turn of the loop, seen through its history entry. *)
Lemma step_facts (s : SmtpProtocol) (r : read_result) :
  let e := Entry s r (session_step r s) in
  (truthy_bytes (_sender (final (out e))) = true ->
     mail_ok e = true \/ (truthy_bytes (_sender s) = true /\ resets e = false)) /\
  (truthy_bytes (_helo (final (out e))) = true ->
     greeting_ok e = true \/ (truthy_bytes (_helo s) = true /\ resets e = false)) /\
  (rcpt_ok e = true -> truthy_bytes (_sender s) = true) /\
  (mail_ok e = true -> truthy_bytes (_helo s) = true) /\
  (greeted_sender s -> greeted_sender (final (out e))) /\
  (_max_size s = None -> _max_size (final (out e)) = None).
Proof.
  intros e. subst e.
  unfold greeted_sender, mail_ok, rcpt_ok, greeting_ok, resets, ran, replied.
  cbn [before input out]. unfold session_step. rewrite bind_get.
  destruct (_read_mode s) eqn:Hmode.
  - destruct r as [line| |]; cbn [read_command].
    + unfold handle_command.
      remember (Bytes.upper (command_of line).1) as key eqn:Hkey.
      remember (command_of line).2 as arg eqn:Harg.
      destruct (getitem COMMANDS key) as [m|x] eqn:Hg.
      * rewrite bind_lift_returned. cbn [truthy_method].
        destruct (dispatch_facts key m arg s Hg)
          as (F1 & F2 & F3 & F4 & F5 & F6 & F7).
        repeat split.
        -- intros H. destruct (F1 H) as [Hs|[-> Hc]].
           ++ right. split; [assumption|]. rewrite orb_false_r.
              destruct (String.eqb_spec "RSET" key) as [E|_]; [|reflexivity].
              destruct (F3 (eq_sym E)) as [Hx _]. congruence.
           ++ left. rewrite Hc. reflexivity.
        -- intros H. destruct (F2 H) as [Hh|[[-> | ->] Hc]].
           ++ right. split; [assumption|]. rewrite orb_false_r.
              destruct (String.eqb_spec "RSET" key) as [E|_]; [|reflexivity].
              destruct (F3 (eq_sym E)) as [_ Hx]. congruence.
           ++ left. rewrite Hc. reflexivity.
           ++ left. rewrite Hc. reflexivity.
        -- intros H. apply andb_prop in H as [Hk Hc].
           apply String.eqb_eq in Hk. auto.
        -- intros H. apply andb_prop in H as [Hk Hc].
           apply String.eqb_eq in Hk. auto.
        -- assumption.
        -- assumption.
      * rewrite bind_lift_raised. cbn [final result effects sent_code responses existsb].
        rewrite !andb_false_r, orb_false_r.
        assert (Hr : String.eqb "RSET" key = false).
        { destruct (String.eqb_spec "RSET" key) as [E|_]; [|reflexivity].
          subst key. rewrite <- E in Hg. discriminate Hg. }
        rewrite Hr. repeat split; auto; discriminate.
    + rewrite send_eq. cbn. repeat split; auto; discriminate.
    + cbn. repeat split; auto; discriminate.
  - cbn [andb orb]. destruct r as [block| |]; cbn [read_data].
    + unfold handle_data. rewrite bind_get.
      destruct (truthy_int (_max_size s) && _)%bool.
      * rewrite send_eq. cbn. repeat split; auto; discriminate.
      * rewrite bind_emit, bind_modify, send_eq. cbn.
        repeat split; auto; discriminate.
    + rewrite send_eq. cbn. repeat split; auto; discriminate.
    + cbn. repeat split; auto; discriminate.
Qed.

(** A condition on the session that only a turn accepted by [ok] can
    establish, and that holds on across turns that are no reset, goes
    back to such a turn of the running transaction. *)
Lemma exec_since (P : SmtpProtocol -> bool) (ok : entry -> bool) :
  (forall s r,
      P (final (session_step r s)) = true ->
      ok (Entry s r (session_step r s)) = true \/
      (P s = true /\ resets (Entry s r (session_step r s)) = false)) ->
  forall inputs s log1 e log2,
    exec s inputs = (log1 ++ e :: log2)%list ->
    P (before e) = true ->
    (P s = true /\ no_reset log1 = true) \/
    (exists l m l', log1 = (l ++ m :: l')%list /\ ok m = true /\ no_reset l' = true).
Proof.
  intros Hstep. induction inputs as [|r rest IH]; intros s log1 e log2 Hx HP.
  - destruct log1; discriminate Hx.
  - cbn [exec] in Hx. pose proof (Hstep s r) as Hsr.
    destruct (done (connection_closed s)); [destruct log1; discriminate Hx|].
    remember (session_step r s) as o eqn:Ho.
    destruct log1 as [|e0 log1].
    + injection Hx as He _. subst e. left. split; [exact HP|reflexivity].
    + injection Hx as He0 Htail.
      destruct (result o); [|destruct log1; discriminate Htail].
      destruct (IH _ _ _ _ Htail HP) as [[HPf Hnr]|(l & m & l' & -> & Hok & Hnr)].
      * destruct (Hsr HPf) as [Hok|[HPs Hres]].
        -- right. exists [], e0, log1. subst e0. auto.
        -- left. split; [exact HPs|]. subst e0. cbn [no_reset forallb].
           rewrite Hres. exact Hnr.
      * right. exists (e0 :: l), m, l'. auto.
Qed.

Lemma exec_before (inputs : list read_result) :
  forall s log1 e log2,
    exec s inputs = (log1 ++ e :: log2)%list ->
    e = Entry (before e) (input e) (session_step (input e) (before e)).
Proof.
  induction inputs as [|r rest IH]; intros s log1 e log2 Hx.
  - destruct log1; discriminate Hx.
  - cbn [exec] in Hx.
    destruct (done (connection_closed s)); [destruct log1; discriminate Hx|].
    destruct log1 as [|e0 log1].
    + injection Hx as He _. subst e. reflexivity.
    + remember (session_step r s) as o eqn:Ho.
      injection Hx as _ Htail.
      destruct (result o); [|destruct log1; discriminate Htail].
      eapply IH, Htail.
Qed.

(** The maximum size is unset in every session that can arise. *)
Lemma reachable_max_size (s : SmtpProtocol) :
  reachable s -> _max_size s = None.
Proof.
  induction 1 as [fqdn max_size|s _ IH|s r _ IH|s _ IH|s _ IH].
  - reflexivity.
  - unfold client_connected. rewrite bind_modify, bind_get.
    destruct (connection_open _); exact IH.
  - apply (step_facts s r), IH.
  - unfold connection_lost. rewrite bind_modify, bind_get.
    destruct (connection_closed _); exact IH.
  - rewrite close_eq. destruct (connection_closed s); exact IH.
Qed.

(** X20.  No session that can arise advertises SIZE: before a
    greeting, an EHLO with a one-word argument is answered by the
    domain line and the HELP line alone, and it records the greeting
    domain and the ESMTP flag. *)
Lemma ehlo_reply_of_reachable (s : SmtpProtocol) (arg : option bytes)
    (host : bytes) (rest : option bytes) :
  reachable s ->
  truthy_bytes (_helo s) = false ->
  split_command arg = Returned (host, rest) -> host <> "" ->
  ehlo arg s
  = Outcome (Returned tt) (set_helo (Some host) (set_is_esmtp true s))
      [Write (terminated ("250-" +:+ _fqdn s +:+ LINE_TERM +:+ "250 HELP")); Drain].
Proof.
  intros Hr Hh Hsplit Hhost. apply reachable_max_size in Hr.
  unfold ehlo. rewrite bind_get, Hh, Hsplit, bind_lift_returned. truth.
  destruct host as [|c host]; [congruence|]. truth.
  rewrite !bind_modify, Hr. reflexivity.
Qed.

Lemma reachable_greeted_sender (s : SmtpProtocol) :
  reachable s -> greeted_sender s.
Proof.
  induction 1 as [fqdn max_size|s _ IH|s r _ IH|s _ IH|s _ IH].
  - intros H. discriminate H.
  - unfold client_connected. rewrite bind_modify, bind_get.
    destruct (connection_open _); exact IH.
  - apply (step_facts s r), IH.
  - unfold connection_lost. rewrite bind_modify, bind_get.
    destruct (connection_closed _); exact IH.
  - rewrite close_eq. destruct (connection_closed s); exact IH.
Qed.

(** C7.  In every reachable session a sender is set only while a
    greeting domain is set.  In the history of a session, an RCPT that
    is answered 250 comes after a MAIL answered 250 with no reset in
    between (the same transaction), and a MAIL answered 250 comes
    after a HELO or EHLO answered 250 with no reset in between. *)
Theorem sender_requires_greeting :
  (forall s, reachable s ->
     truthy_bytes (_sender s) = true -> truthy_bytes (_helo s) = true) /\
  (forall fqdn max_size inputs log1 e log2,
     exec (connected fqdn max_size) inputs = (log1 ++ e :: log2)%list ->
     (rcpt_ok e = true ->
        exists l m l',
          log1 = (l ++ m :: l')%list /\ mail_ok m = true /\ no_reset l' = true) /\
     (mail_ok e = true ->
        exists l g l',
          log1 = (l ++ g :: l')%list /\ greeting_ok g = true /\ no_reset l' = true)).
Proof.
  split; [exact reachable_greeted_sender|].
  intros fqdn max_size inputs log1 e log2 Hx.
  pose proof (exec_before _ _ _ _ _ Hx) as He.
  split; intros Hok; rewrite He in Hok.
  - apply (step_facts (before e) (input e)) in Hok.
    destruct (exec_since (fun s => truthy_bytes (_sender s)) mail_ok
                (fun s r => proj1 (step_facts s r)) _ _ _ _ _ Hx Hok)
      as [[Hs _]|Hex]; [discriminate Hs|exact Hex].
  - apply (step_facts (before e) (input e)) in Hok.
    destruct (exec_since (fun s => truthy_bytes (_helo s)) greeting_ok
                (fun s r => proj1 (proj2 (step_facts s r))) _ _ _ _ _ Hx Hok)
      as [[Hs _]|Hex]; [discriminate Hs|exact Hex].
Qed.

Lemma reachable_after (inputs : list read_result) :
  forall s, reachable s -> reachable (after inputs s).
Proof.
  induction inputs as [|r rest IH]; intros s Hs; [exact Hs|].
  apply IH, reach_step, Hs.
Qed.

Lemma reachable_connected (fqdn : bytes) (max_size : option Z) :
  reachable (connected fqdn max_size).
Proof. apply reach_connected, reach_init. Qed.

(** ** Further properties of the module *)

(** *** Byte-string facts used below *)

Lemma length_app (s t : bytes) :
  String.length (s +:+ t) = (String.length s + String.length t)%nat.
Proof. induction s as [|c s IH]; simpl; [reflexivity|]. rewrite IH. reflexivity. Qed.

Lemma drop_length_app (s t : bytes) : Bytes.drop (String.length s) (s +:+ t) = t.
Proof. induction s as [|c s IH]; simpl; [destruct t; reflexivity|exact IH]. Qed.

Lemma endswith_app (s t : bytes) : Bytes.endswith (s +:+ t) t = true.
Proof.
  unfold Bytes.endswith. rewrite length_app.
  replace (String.length s + String.length t - String.length t)%nat
    with (String.length s) by lia.
  rewrite drop_length_app, String.eqb_refl.
  rewrite andb_true_r. apply Nat.leb_le. lia.
Qed.

Lemma upper_app (s t : bytes) :
  Bytes.upper (s +:+ t) = Bytes.upper s +:+ Bytes.upper t.
Proof. induction s as [|c s IH]; simpl; [reflexivity|]. rewrite IH. reflexivity. Qed.

Lemma length_upper (s : bytes) : String.length (Bytes.upper s) = String.length s.
Proof. induction s as [|c s IH]; simpl; [reflexivity|]. rewrite IH. reflexivity. Qed.

Lemma prefix_app (p x : bytes) : String.prefix p (p +:+ x) = true.
Proof.
  induction p as [|c p IH]; simpl; [destruct x; reflexivity|].
  destruct (ascii_dec c c) as [_|Hne]; [exact IH|congruence].
Qed.

(** *** Response framing ([send]) *)

Lemma terminated_ends (line : bytes) :
  Bytes.endswith (terminated line) LINE_TERM = true.
Proof.
  unfold terminated. destruct (Bytes.endswith line LINE_TERM) eqn:E; simpl.
  - exact E.
  - apply endswith_app.
Qed.

(** X1.  Whatever line a caller hands to [send], the chunk written to
    the stream ends with CRLF: a line that already ends with CRLF is
    written as it is, any other line gets exactly one CRLF appended, and
    the write is followed by a drain. *)
Theorem send_writes_one_terminated_line (line : bytes) (s : SmtpProtocol) :
  exists chunk,
    send line s = Outcome (Returned tt) s [Write chunk; Drain] /\
    Bytes.endswith chunk LINE_TERM = true /\
    terminated chunk = chunk /\
    (chunk = line \/
     (Bytes.endswith line LINE_TERM = false /\ chunk = line +:+ LINE_TERM)).
Proof.
  exists (terminated line). split; [reflexivity|].
  split; [apply terminated_ends|]. split.
  - unfold terminated at 1. rewrite terminated_ends. reflexivity.
  - unfold terminated. destruct (Bytes.endswith line LINE_TERM); simpl; auto.
Qed.

(** *** Keyword stripping ([strip_keyword]) *)

(** X2.  [strip_keyword] matches its keyword without regard to case and
    returns what follows the keyword with surrounding white space
    removed. *)
Theorem strip_keyword_prefix (prefix keyword rest : bytes) :
  Bytes.upper prefix = Bytes.upper keyword ->
  strip_keyword (prefix +:+ rest) keyword = Bytes.strip rest.
Proof.
  intros Hup. unfold strip_keyword, Bytes.startswith, Bytes.slice_from.
  rewrite upper_app, Hup, prefix_app, Nat2Z.id.
  replace (String.length keyword) with (String.length prefix).
  - rewrite drop_length_app. reflexivity.
  - rewrite <- (length_upper prefix), Hup. apply length_upper.
Qed.

(** X3.  A MAIL argument that does not start with [FROM:] (in any
    case) is stripped to the empty string, which [parse_addr] turns
    into an empty address: once the greeting and no-sender checks have
    passed, the reply is the 501 syntax error and the session is left
    as it was.  The address parser is not consulted. *)
Theorem mail_without_from_keyword (s : SmtpProtocol) (arg : bytes) :
  truthy_bytes (_helo s) = true ->
  truthy_bytes (_sender s) = false ->
  arg <> "" ->
  Bytes.startswith (Bytes.upper arg) "FROM:" = false ->
  mail (Some arg) s
  = Outcome (Returned tt) s
      [Write (terminated "501 Syntax: MAIL FROM: <address>"); Drain].
Proof.
  intros Hh Hs Harg Hk. unfold mail. rewrite bind_get, Hh, Hs.
  destruct arg as [|c arg]; [congruence|]. truth.
  unfold strip_keyword. change (Bytes.upper "FROM:") with "FROM:". rewrite Hk.
  reflexivity.
Qed.

(** X4.  The same for RCPT and [TO:], with the 501 reply of RCPT. *)
Theorem rcpt_without_to_keyword (s : SmtpProtocol) (arg : bytes) :
  truthy_bytes (_helo s) = true ->
  truthy_bytes (_sender s) = true ->
  arg <> "" ->
  Bytes.startswith (Bytes.upper arg) "TO:" = false ->
  rcpt (Some arg) s
  = Outcome (Returned tt) s [Write (terminated "501 Syntax: RCPT <address>"); Drain].
Proof.
  intros Hh Hs Harg Hk. unfold rcpt. rewrite bind_get, Hh, Hs.
  destruct arg as [|c arg]; [congruence|]. truth.
  unfold strip_keyword. change (Bytes.upper "TO:") with "TO:". rewrite Hk.
  reflexivity.
Qed.

(** *** MAIL parameters ([parse_mail_params]) *)

Lemma dict_set_nonempty (k v : bytes) (d : dict) : dict_set k v d <> [].
Proof. destruct d as [|[k' v'] d]; simpl; [|destruct (String.eqb k' k)]; discriminate. Qed.

Lemma dict_set_keys (k v : bytes) (d : dict) :
  (dict_set k v d).*1 = if bool_decide (k ∈ d.*1) then d.*1 else (d.*1 ++ [k])%list.
Proof.
  induction d as [|[k' v'] d IH]; [reflexivity|].
  cbn [dict_set]. destruct (String.eqb_spec k' k) as [->|Hne].
  - rewrite !fmap_cons. cbn [fst].
    rewrite bool_decide_eq_true_2 by apply list_elem_of_here. reflexivity.
  - rewrite !fmap_cons, IH. cbn [fst]. destruct (bool_decide (k ∈ d.*1)) eqn:E.
    + apply bool_decide_eq_true_1 in E.
      rewrite bool_decide_eq_true_2 by (apply list_elem_of_further, E). reflexivity.
    + apply bool_decide_eq_false_1 in E.
      rewrite bool_decide_eq_false_2; [reflexivity|].
      rewrite elem_of_cons. intros [?|?]; congruence.
Qed.

Lemma dict_set_nodup (k v : bytes) (d : dict) :
  NoDup d.*1 -> NoDup (dict_set k v d).*1.
Proof.
  intros Hd. rewrite dict_set_keys. destruct (bool_decide (k ∈ d.*1)) eqn:E; [exact Hd|].
  apply bool_decide_eq_false_1 in E. apply NoDup_app. repeat split; auto.
  - intros x Hx Hk. apply list_elem_of_singleton in Hk. congruence.
  - apply NoDup_singleton.
Qed.

Lemma dict_set_elem (k v : bytes) (d : dict) (kv : bytes * bytes) :
  kv ∈ dict_set k v d -> kv = (k, v) \/ kv ∈ d.
Proof.
  induction d as [|[k' v'] d IH]; simpl.
  - intros H. apply list_elem_of_singleton in H. auto.
  - destruct (String.eqb_spec k' k) as [->|Hne]; intros H;
      apply elem_of_cons in H as [H|H]; auto.
    + right. apply list_elem_of_further, H.
    + right. rewrite H. apply list_elem_of_here.
    + destruct (IH H); auto. right. apply list_elem_of_further. assumption.
Qed.

Lemma parse_pairs_spec (pairs : list bytes) :
  forall (d r : dict),
    parse_pairs pairs d = Some r ->
    (d <> [] \/ pairs <> [] -> r <> []) /\
    (NoDup d.*1 -> NoDup r.*1) /\
    (forall kv, kv ∈ r ->
       kv ∈ d \/
       exists item ix, item ∈ pairs /\ Bytes.find item "=" = ix /\ 0 <= ix /\
                       kv = (Bytes.slice_to ix item, Bytes.slice_from (ix + 1) item)).
Proof.
  induction pairs as [|item pairs IH]; intros d r; simpl.
  - intros [= <-]. repeat split; auto. intros [?|?]; congruence.
  - destruct (Z.ltb_spec (Bytes.find item "=") 0) as [|Hix]; [discriminate|].
    intros Hr. destruct (IH _ _ Hr) as (Hne & Hnd & Hin). repeat split.
    + intros _. apply Hne. left. apply dict_set_nonempty.
    + intros Hd. apply Hnd, dict_set_nodup, Hd.
    + intros kv Hkv. destruct (Hin kv Hkv) as [Hset|(it & ix & Hit & Hf & H0 & ->)].
      * apply dict_set_elem in Hset as [->|Hd]; [|auto].
        right. exists item, (Bytes.find item "="). repeat split; auto.
        apply list_elem_of_here.
      * right. exists it, ix. repeat split; auto. apply list_elem_of_further, Hit.
Qed.

Lemma parse_pairs_none (pairs : list bytes) :
  forall d, parse_pairs pairs d = None <->
            Exists (fun item => Bytes.find item "=" < 0) pairs.
Proof.
  induction pairs as [|item pairs IH]; intros d; simpl.
  - split; [discriminate|]. intros H. inversion H.
  - destruct (Z.ltb_spec (Bytes.find item "=") 0) as [Hlt|Hge].
    + split; intros _; [apply Exists_cons_hd, Hlt|reflexivity].
    + rewrite IH. split; [apply Exists_cons_tl|].
      intros H. inversion H; subst; [lia|assumption].
Qed.

Lemma split_nonempty (sep : ascii) (s : bytes) : Bytes.split sep s <> [].
Proof.
  induction s as [|c s IH]; simpl; [discriminate|].
  destruct (Ascii.eqb c sep); [discriminate|].
  destruct (Bytes.split sep s); discriminate.
Qed.

Lemma find_from_range (c : ascii) (s : bytes) :
  forall i, Bytes.find_from c s i = -1 \/ i <= Bytes.find_from c s i.
Proof.
  induction s as [|d s IH]; intros i; simpl; [auto|].
  destruct (Ascii.eqb d c); [right; lia|].
  destruct (IH (i + 1)); [auto|right; lia].
Qed.

(** A successful [find] splits the string around the byte found, and
    the part before it does not hold the byte. *)
Lemma find_from_split (c : ascii) (s : bytes) :
  forall i, 0 <= i -> i <= Bytes.find_from c s i ->
    let n := Z.to_nat (Bytes.find_from c s i - i) in
    s = Bytes.take n s +:+ String c (Bytes.drop (S n) s) /\
    forall k, Bytes.find_from c (Bytes.take n s) k = -1.
Proof.
  induction s as [|d s IH]; intros i Hi; simpl.
  - lia.
  - destruct (Ascii.eqb_spec d c) as [->|Hne].
    + intros _. rewrite Z.sub_diag. simpl. auto.
    + intros Hle.
      destruct (find_from_range c s (i + 1)) as [Hm|Hr]; [lia|].
      destruct (IH (i + 1) ltac:(lia) Hr) as [Hs Hk].
      replace (Z.to_nat (Bytes.find_from c s (i + 1) - i))
        with (S (Z.to_nat (Bytes.find_from c s (i + 1) - (i + 1)))) by lia.
      set (n := Z.to_nat (Bytes.find_from c s (i + 1) - (i + 1))) in *.
      split.
      * change (String d s
                = String d (Bytes.take n s +:+ String c (Bytes.drop (S n) s))).
        f_equal. exact Hs.
      * intros k. change (Bytes.take (S n) (String d s)) with (String d (Bytes.take n s)).
        cbn [Bytes.find_from]. destruct (Ascii.eqb_spec d c); [contradiction|]. apply Hk.
Qed.

(** X5.  [parse_mail_params] gives up ([None]) exactly when one of the
    items between single spaces has no [=]; an empty item, as two
    spaces in a row produce, is such an item. *)
Theorem parse_mail_params_none (param_line : bytes) :
  parse_mail_params param_line = None <->
  Exists (fun item => Bytes.find item "=" < 0) (Bytes.split " " param_line).
Proof. apply parse_pairs_none. Qed.

(** X6.  A dictionary returned by [parse_mail_params] is never empty,
    its keys are pairwise distinct, and every entry [(key, value)]
    comes from an item [key=value] of the line, split at the item's
    first [=]. *)
Theorem parse_mail_params_some (param_line : bytes) (params : dict) :
  parse_mail_params param_line = Some params ->
  params <> [] /\
  NoDup params.*1 /\
  forall key value, (key, value) ∈ params ->
    key +:+ String "=" value ∈ Bytes.split " " param_line /\
    Bytes.find key "=" = -1.
Proof.
  intros Hp. destruct (parse_pairs_spec _ _ _ Hp) as (Hne & Hnd & Hin).
  split; [apply Hne; right; apply split_nonempty|].
  split; [apply Hnd, NoDup_nil_2|].
  intros key value Hkv.
  destruct (Hin _ Hkv) as [Hnil|(item & ix & Hit & Hf & H0 & Heq)].
  { apply elem_of_nil in Hnil. contradiction. }
  injection Heq as -> ->. unfold Bytes.find in Hf, H0. subst ix.
  destruct (find_from_split "=" item 0 ltac:(lia) H0) as [Hsplit Hk].
  cbv zeta in Hsplit, Hk. rewrite Z.sub_0_r in Hsplit, Hk.
  unfold Bytes.slice_to, Bytes.slice_from.
  replace (Z.to_nat (Bytes.find_from "=" item 0 + 1))
    with (S (Z.to_nat (Bytes.find_from "=" item 0))) by lia.
  rewrite <- Hsplit. split; [exact Hit|apply Hk].
Qed.

(** *** Argument splitting ([split_command]) *)

Lemma find_from_get (c : ascii) (s : bytes) :
  forall i, 0 <= i -> i <= Bytes.find_from c s i ->
    String.get (Z.to_nat (Bytes.find_from c s i - i)) s = Some c.
Proof.
  induction s as [|d s IH]; intros i Hi; simpl; [lia|].
  destruct (Ascii.eqb_spec d c) as [->|Hne].
  - intros _. rewrite Z.sub_diag. reflexivity.
  - intros Hle. destruct (find_from_range c s (i + 1)) as [Hm|Hr]; [lia|].
    replace (Z.to_nat (Bytes.find_from c s (i + 1) - i))
      with (S (Z.to_nat (Bytes.find_from c s (i + 1) - (i + 1)))) by lia.
    apply (IH (i + 1)); [lia|exact Hr].
Qed.

(** A white-space byte of a right-stripped string is never its last. *)
Lemma rstrip_space_not_last (s : bytes) :
  forall n c, String.get n (Bytes.rstrip s) = Some c -> Bytes.is_space c = true ->
    exists c', String.get (S n) (Bytes.rstrip s) = Some c'.
Proof.
  induction s as [|a s IH]; intros n c; cbn [Bytes.rstrip].
  - destruct n; discriminate.
  - destruct (Bytes.is_space a && Bytes.is_empty (Bytes.rstrip s))%bool eqn:E.
    + destruct n; discriminate.
    + destruct n as [|n]; cbn [String.get].
      * intros [= ->] Hsp. rewrite Hsp in E. cbn in E.
        destruct (Bytes.rstrip s) as [|c' r]; [discriminate|].
        exists c'. reflexivity.
      * apply IH.
Qed.

Lemma split_command_eq (line : option bytes) :
  split_command line =
  match line with
  | None => Raised AttributeError
  | Some line =>
      if 0 <=? Bytes.find (Bytes.strip line) " "
      then Raised AttributeError
      else Returned (Bytes.strip line, None)
  end.
Proof.
  destruct line as [line|]; [|reflexivity]. unfold split_command.
  destruct (Z.leb_spec 0 (Bytes.find (Bytes.strip line) " ")) as [Hix|]; [|reflexivity].
  unfold Bytes.find in *.
  pose proof (find_from_get " " (Bytes.strip line) 0 ltac:(lia) Hix) as Hget.
  rewrite Z.sub_0_r in Hget.
  destruct (rstrip_space_not_last _ _ _ Hget eq_refl) as [c' Hc'].
  unfold Bytes.item.
  destruct (Z.ltb_spec (Bytes.find_from " " (Bytes.strip line) 0 + 1) 0); [lia|].
  replace (Z.to_nat (Bytes.find_from " " (Bytes.strip line) 0 + 1))
    with (S (Z.to_nat (Bytes.find_from " " (Bytes.strip line) 0))) by lia.
  unfold Bytes.strip in Hc' |- *. rewrite Hc'. reflexivity.
Qed.

(** X7.  [split_command] never returns a second component.  On a
    [bytes] argument whose stripped text has no space it returns that
    text and [None]; on every other [bytes] argument it raises
    [AttributeError] (the byte after the first space exists, and [strip]
    is looked up on that [int]); on [None] it raises [AttributeError]
    as well. *)
Theorem split_command_cases (line : option bytes) :
  split_command line =
  match line with
  | None => Raised AttributeError
  | Some line =>
      if 0 <=? Bytes.find (Bytes.strip line) " "
      then Raised AttributeError
      else Returned (Bytes.strip line, None)
  end.
Proof. apply split_command_eq. Qed.

(** X8.  Before a greeting, an EHLO without argument, or with an
    argument of more than one word, raises [AttributeError]: nothing is
    sent and the session is left as it was; an EHLO of one word is
    accepted and stores that word, stripped, as the greeting domain. *)
Theorem ehlo_outcomes (s : SmtpProtocol) (arg : option bytes) :
  truthy_bytes (_helo s) = false ->
  match arg with
  | None => ehlo arg s = Outcome (Raised AttributeError) s []
  | Some line =>
      if 0 <=? Bytes.find (Bytes.strip line) " "
      then ehlo arg s = Outcome (Raised AttributeError) s []
      else if Bytes.is_empty (Bytes.strip line)
      then ehlo arg s
           = Outcome (Returned tt) s [Write (terminated "501 Syntax: EHLO hostname"); Drain]
      else result (ehlo arg s) = Returned tt /\
           final (ehlo arg s)
           = set_helo (Some (Bytes.strip line)) (set_is_esmtp true s) /\
           sent_code "250" (ehlo arg s) = true
  end.
Proof.
  intros Hh. unfold ehlo. rewrite bind_get, Hh, split_command_eq.
  destruct arg as [line|]; [|reflexivity].
  destruct (0 <=? Bytes.find (Bytes.strip line) " "); [reflexivity|].
  rewrite bind_lift_returned. truth.
  destruct (Bytes.is_empty (Bytes.strip line)); [reflexivity|].
  rewrite !bind_modify, send_eq. repeat split.
  destruct (truthy_int (_max_size s)); apply sent_250_terminated; reflexivity.
Qed.

(** *** What one command does to the session *)

(** The transaction attributes fit together: recipients are held only
    with a sender, and data is awaited only with recipients. *)
Definition transaction_ok (s : SmtpProtocol) : Prop :=
  (_recipients s <> [] -> truthy_bytes (_sender s) = true) /\
  (_read_mode s = READ_MODE_DATA -> _recipients s <> []).

(** What the handler dispatched for [name] does and leaves alone. *)
Definition turn_facts (name : bytes) (s : SmtpProtocol) (o : outcome unit) : Prop :=
  (_fqdn (final o) = _fqdn s /\ _state (final o) = _state s /\
   connection_open (final o) = connection_open s) /\
  (name <> "QUIT" -> connection_closed (final o) = connection_closed s) /\
  (name <> "RSET" ->
     _recipients s `prefix_of` _recipients (final o) /\
     _allowed_recipients s ⊆ _allowed_recipients (final o)) /\
  (name <> "VRFY" -> result o = Returned tt ->
     length (responses (effects o)) = 1%nat) /\
  (_read_mode s = READ_MODE_COMMAND -> transaction_ok s -> transaction_ok (final o)) /\
  (_read_mode s = READ_MODE_COMMAND ->
     (_read_mode (final o) = READ_MODE_DATA <->
      name = "DATA" /\ sent_code "354" o = true)) /\
  (name <> "RSET" ->
     (truthy_bytes (_helo s) = true ->
        _helo (final o) = _helo s /\ _is_esmtp (final o) = _is_esmtp s) /\
     (truthy_bytes (_sender s) = true -> _sender (final o) = _sender s)).

Ltac turn_solver :=
  unfold turn_facts, transaction_ok, sent_code;
  cbn [final result effects responses existsb length modify ret emit raise
       _fqdn _state connection_open connection_closed _read_mode _helo _sender
       _recipients _allowed_recipients _is_esmtp _max_size _message_size
       _recipients_truncated
       set_state set_connection_open set_connection_closed set_read_mode
       set_helo set_sender set_recipients set_allowed_recipients set_is_esmtp
       set_max_size set_message_size set_recipients_truncated reset_state];
  repeat match goal with
         | |- _ /\ _ => split
         | |- _ <-> _ => split
         | |- _ -> _ => intro
         | H : _ /\ _ |- _ => destruct H
         end;
  try reflexivity; try discriminate; try congruence; try tauto;
  try (exfalso; congruence).

Lemma noop_turn arg s : turn_facts "NOOP" s (noop arg s).
Proof. unfold noop. destruct (truthy_bytes arg); rewrite send_eq; turn_solver. Qed.

Lemma expn_turn arg s : turn_facts "EXPN" s (expn arg s).
Proof. unfold expn. rewrite send_eq. turn_solver. Qed.

Lemma helo_turn arg s : turn_facts "HELO" s (helo arg s).
Proof.
  unfold helo. rewrite bind_get.
  destruct (truthy_bytes (_helo s)) eqn:Hh; [rewrite send_eq; turn_solver|].
  destruct (negb (truthy_bytes arg)); [rewrite send_eq; turn_solver|].
  rewrite !bind_modify, send_eq. turn_solver.
Qed.

Lemma ehlo_turn arg s : turn_facts "EHLO" s (ehlo arg s).
Proof.
  unfold ehlo. rewrite bind_get.
  destruct (truthy_bytes (_helo s)) eqn:Hh; [rewrite send_eq; turn_solver|].
  destruct (split_command arg) as [[host rest]|e];
    [rewrite bind_lift_returned|rewrite bind_lift_raised; turn_solver].
  truth. destruct (Bytes.is_empty host); [rewrite send_eq; turn_solver|].
  rewrite !bind_modify, send_eq. turn_solver.
Qed.

Lemma rset_turn arg s : turn_facts "RSET" s (rset arg s).
Proof. unfold rset. rewrite bind_modify, send_eq. turn_solver. Qed.

Lemma quit_turn arg s : turn_facts "QUIT" s (quit arg s).
Proof.
  unfold quit. destruct (truthy_bytes arg); [rewrite send_eq; turn_solver|].
  rewrite bind_send, close_eq. destruct (connection_closed s); turn_solver.
Qed.

Lemma vrfy_turn arg s : turn_facts "VRFY" s (vrfy arg s).
Proof.
  unfold vrfy. destruct arg as [arg|]; [|turn_solver].
  rewrite bind_get. destruct (bool_decide _); [rewrite send_eq; turn_solver|].
  rewrite bind_emit. destruct (truthy_bytes (verify arg)); turn_solver.
  set_solver.
Qed.

Lemma data_turn arg s : turn_facts "DATA" s (data arg s).
Proof.
  unfold data. rewrite bind_get.
  destruct (truthy_bytes arg); [rewrite send_eq; turn_solver|].
  destruct (negb (truthy_bytes (_helo s))); [rewrite send_eq; turn_solver|].
  destruct (negb (truthy_bytes (_sender s))); [rewrite send_eq; turn_solver|].
  destruct (_recipients s) as [|a l] eqn:Hr; truth; [rewrite send_eq; turn_solver|].
  unfold expect_data. rewrite bind_modify, send_eq. turn_solver.
  all: rewrite ?Hr; try discriminate; try tauto.
Qed.

Lemma rcpt_turn arg s : turn_facts "RCPT" s (rcpt arg s).
Proof.
  unfold rcpt. rewrite bind_get.
  destruct (negb (truthy_bytes (_helo s))); [rewrite send_eq; turn_solver|].
  destruct (truthy_bytes (_sender s)) eqn:Hs; truth; [|rewrite send_eq; turn_solver].
  destruct (negb (truthy_bytes arg)); [rewrite send_eq; turn_solver|].
  destruct (parse_addr _) as [[addr params]|e];
    [rewrite bind_lift_returned|rewrite bind_lift_raised; turn_solver].
  destruct (negb (truthy_bytes _)); [rewrite send_eq; turn_solver|].
  destruct (negb (Bytes.is_empty _)); [rewrite send_eq; turn_solver|].
  branches; rewrite bind_modify, send_eq; turn_solver;
    try (apply prefix_app_r; reflexivity);
    try (match goal with H : _ = READ_MODE_DATA |- _ => congruence end).
Qed.

Lemma mail_turn arg s : turn_facts "MAIL" s (mail arg s).
Proof.
  destruct (mail_ends arg s) as [e Hr Hf Hfx | ms line Hr Hf Hfx Hc
                                | ms addr Hh Hs Ha Hr Hf Hfx];
    unfold turn_facts, transaction_ok, sent_code; rewrite Hf, Hfx, Hr;
    turn_solver.
  all: try (apply terminated_code; reflexivity).
Qed.

Lemma dispatch_turn (key : bytes) (m : method) (arg : option bytes)
    (s : SmtpProtocol) :
  getitem COMMANDS key = Returned m -> turn_facts key s (m arg s).
Proof.
  unfold COMMANDS. cbn [getitem].
  repeat match goal with
         | |- context [String.eqb ?k key] =>
             destruct (String.eqb_spec k key) as [E|_];
             [subst key; intros [= <-];
              auto using helo_turn, ehlo_turn, vrfy_turn, expn_turn,
                rset_turn, mail_turn, rcpt_turn, data_turn, noop_turn,
                quit_turn|]
         end.
  discriminate.
Qed.

(** One turn of the loop of [run], in either read mode. *)
Lemma step_turn (s : SmtpProtocol) (r : read_result) :
  let o := session_step r s in
  let e := Entry s r o in
  (_fqdn (final o) = _fqdn s /\ _state (final o) = _state s /\
   connection_open (final o) = connection_open s) /\
  (ran "QUIT" e = false -> connection_closed (final o) = connection_closed s) /\
  (resets e = false ->
     _recipients s `prefix_of` _recipients (final o) /\
     _allowed_recipients s ⊆ _allowed_recipients (final o)) /\
  (ran "VRFY" e = false -> result o = Returned tt ->
     length (responses (effects o)) = 1%nat) /\
  (transaction_ok s -> transaction_ok (final o)) /\
  (_read_mode s = READ_MODE_COMMAND ->
     (_read_mode (final o) = READ_MODE_DATA <->
      ran "DATA" e = true /\ replied "354" e = true)) /\
  (_read_mode s = READ_MODE_DATA ->
     (_read_mode (final o) = READ_MODE_COMMAND <-> replied "250" e = true)) /\
  (resets e = false ->
     (truthy_bytes (_helo s) = true ->
        _helo (final o) = _helo s /\ _is_esmtp (final o) = _is_esmtp s) /\
     (truthy_bytes (_sender s) = true -> _sender (final o) = _sender s)).
Proof.
  intros o e. subst o e. unfold resets, ran, replied. cbn [before input out].
  unfold session_step. rewrite bind_get.
  destruct (_read_mode s) eqn:Hmode.
  - destruct r as [line| |]; cbn [read_command].
    + unfold handle_command.
      remember (Bytes.upper (command_of line).1) as key eqn:Hkey.
      remember (command_of line).2 as arg eqn:Harg.
      destruct (getitem COMMANDS key) as [m|x] eqn:Hg.
      * rewrite bind_lift_returned. cbn [truthy_method].
        destruct (dispatch_turn key m arg s Hg)
          as (T1 & T2 & T3 & T4 & T5 & T6 & T7).
        split; [exact T1|]. split.
        { intros Hq. apply T2. intros ->. discriminate Hq. }
        split.
        { rewrite orb_false_r. intros Hq. apply T3. intros ->. discriminate Hq. }
        split.
        { intros Hq. apply T4. intros ->. discriminate Hq. }
        split; [apply T5; exact Hmode|]. split; [|split; [discriminate|]].
        { intros _. rewrite (T6 Hmode). split.
          - intros [-> Hc]. auto.
          - intros [Hk Hc]. apply String.eqb_eq in Hk. auto. }
        rewrite orb_false_r. intros Hq. apply T7. intros ->. discriminate Hq.
      * rewrite bind_lift_raised. turn_solver.
    + rewrite send_eq. turn_solver.
    + turn_solver.
  - cbn [orb]. destruct r as [block| |]; cbn [read_data].
    + unfold handle_data. rewrite bind_get.
      destruct (truthy_int (_max_size s) && _)%bool.
      * rewrite send_eq. turn_solver.
      * rewrite bind_emit, bind_modify, send_eq.
        destruct (_recipients_truncated s); turn_solver.
    + rewrite send_eq. turn_solver.
    + turn_solver.
Qed.

(** *** Invariants of the transaction attributes *)

Lemma reachable_transaction_ok (s : SmtpProtocol) :
  reachable s -> transaction_ok s.
Proof.
  induction 1 as [fqdn max_size|s _ IH|s r _ IH|s _ IH|s _ IH].
  - split; [intros H; contradiction|discriminate].
  - unfold client_connected. rewrite bind_modify, bind_get.
    destruct (connection_open _); exact IH.
  - apply (step_turn s r), IH.
  - unfold connection_lost. rewrite bind_modify, bind_get.
    destruct (connection_closed _); exact IH.
  - rewrite close_eq. destruct (connection_closed s); exact IH.
Qed.

(** X9.  In every session that can arise, recipients are held only
    while a sender is set, and the read mode is Data only while the
    session holds at least one recipient, a sender and a greeting
    domain. *)
Theorem data_mode_has_transaction (s : SmtpProtocol) :
  reachable s ->
  (_recipients s <> [] -> truthy_bytes (_sender s) = true) /\
  (_read_mode s = READ_MODE_DATA ->
     _recipients s <> [] /\
     truthy_bytes (_sender s) = true /\
     truthy_bytes (_helo s) = true).
Proof.
  intros Hr. destruct (reachable_transaction_ok s Hr) as [H1 H2].
  pose proof (reachable_greeted_sender s Hr) as H3.
  split; [exact H1|]. intros Hd. specialize (H2 Hd).
  repeat split; [exact H2|exact (H1 H2)|exact (H3 (H1 H2))].
Qed.

(** X10.  A turn of the loop that is not a reset (neither an RSET nor a
    completed data phase) only appends to the recipients and only adds
    to the set of verified addresses. *)
Theorem transaction_data_only_grows (s : SmtpProtocol) (r : read_result) :
  resets (Entry s r (session_step r s)) = false ->
  _recipients s `prefix_of` _recipients (final (session_step r s)) /\
  _allowed_recipients s ⊆ _allowed_recipients (final (session_step r s)).
Proof. apply (step_turn s r). Qed.

(** X11.  Within a transaction the greeting and the sender are
    assigned once: a turn that is not a reset leaves a greeting domain
    that is set, and the ESMTP flag that came with it, as they are, and
    leaves a sender that is set as it is. *)
Theorem greeting_and_sender_set_once (s : SmtpProtocol) (r : read_result) :
  resets (Entry s r (session_step r s)) = false ->
  (truthy_bytes (_helo s) = true ->
     _helo (final (session_step r s)) = _helo s /\
     _is_esmtp (final (session_step r s)) = _is_esmtp s) /\
  (truthy_bytes (_sender s) = true ->
     _sender (final (session_step r s)) = _sender s).
Proof. apply (step_turn s r). Qed.


(** X13.  No turn of the loop changes the server domain, the lifecycle
    state or the opening future, and only a turn that dispatches QUIT
    can touch the closing future. *)
Theorem turn_keeps_lifecycle (s : SmtpProtocol) (r : read_result) :
  (_fqdn (final (session_step r s)) = _fqdn s /\
   _state (final (session_step r s)) = _state s /\
   connection_open (final (session_step r s)) = connection_open s) /\
  (ran "QUIT" (Entry s r (session_step r s)) = false ->
   connection_closed (final (session_step r s)) = connection_closed s).
Proof.
  destruct (step_turn s r) as (H1 & H2 & _). split; [exact H1|exact H2].
Qed.

(** X14.  The read mode changes in two ways only: from Command to Data
    exactly on a DATA command that is answered 354, and from Data back
    to Command exactly on a data block that is answered 250. *)
Theorem read_mode_switches (s : SmtpProtocol) (r : read_result) :
  let e := Entry s r (session_step r s) in
  (_read_mode s = READ_MODE_COMMAND ->
     (_read_mode (final (session_step r s)) = READ_MODE_DATA <->
      ran "DATA" e = true /\ replied "354" e = true)) /\
  (_read_mode s = READ_MODE_DATA ->
     (_read_mode (final (session_step r s)) = READ_MODE_COMMAND <->
      replied "250" e = true)).
Proof.
  destruct (step_turn s r) as (_ & _ & _ & _ & _ & H1 & H2 & _).
  split; [exact H1|exact H2].
Qed.

(** *** Transactions *)

(** X15.  A reset also forgets the greeting: on a session that has just
    been reset, MAIL, RCPT and DATA are all refused with
    [503 Error: Send HELO first] and change nothing, and a HELO is
    accepted again. *)
Theorem reset_requires_new_greeting (s : SmtpProtocol) (arg : bytes) :
  arg <> "" ->
  let s' := reset_state s in
  let refused :=
    Outcome (Returned tt) s' [Write (terminated "503 Error: Send HELO first"); Drain] in
  mail (Some arg) s' = refused /\
  rcpt (Some arg) s' = refused /\
  data None s' = refused /\
  final (helo (Some arg) s') = set_helo (Some arg) (set_is_esmtp false s') /\
  sent_code "250" (helo (Some arg) s') = true.
Proof.
  intros Harg s' refused. subst refused s'.
  destruct arg as [|c arg]; [congruence|].
  assert (Hh : _helo (reset_state s) = None) by reflexivity.
  split; [unfold mail; rewrite bind_get, Hh; truth; apply send_eq|].
  split; [unfold rcpt; rewrite bind_get, Hh; truth; apply send_eq|].
  split; [unfold data; rewrite bind_get, Hh; truth; apply send_eq|].
  unfold helo. rewrite bind_get, Hh. truth.
  rewrite !bind_modify, send_eq. split; [reflexivity|].
  apply sent_250_terminated; reflexivity.
Qed.

(** X16.  VRFY keeps what the handler resolved, not what the client
    asked: after a lookup that resolves [arg] to [resolved], the set of
    verified addresses holds [resolved], and a VRFY of [resolved] is
    answered 252 from the set without calling the handler.  A lookup
    that resolves nothing leaves the session as it was. *)
Theorem vrfy_caches_resolved_address (s : SmtpProtocol) (arg : bytes) :
  arg ∉ _allowed_recipients s ->
  let o := vrfy (Some arg) s in
  effects o = [Verify arg] /\
  match verify arg with
  | Some (String c r) =>
      let resolved := String c r in
      _allowed_recipients (final o) = {[ resolved ]} ∪ _allowed_recipients s /\
      vrfy (Some resolved) (final o)
      = Outcome (Returned tt) (final o)
          [Write (terminated
             "252 Cannot verify user, but will accept message and attempt delivery");
           Drain]
  | _ => final o = s
  end.
Proof.
  intros Hnot o.
  assert (Ho : o = Outcome (Returned tt)
                     (if truthy_bytes (verify arg)
                      then set_allowed_recipients
                             ({[ default "" (verify arg) ]} ∪ _allowed_recipients s) s
                      else s)
                     [Verify arg]).
  { subst o. unfold vrfy. rewrite bind_get.
    rewrite bool_decide_eq_false_2 by exact Hnot. rewrite bind_emit.
    destruct (truthy_bytes (verify arg)); reflexivity. }
  rewrite Ho. cbn [effects final]. split; [reflexivity|].
  destruct (verify arg) as [[|c r]|]; truth; try reflexivity.
  split; [reflexivity|].
  unfold vrfy. rewrite bind_get.
  rewrite bool_decide_eq_true_2; [apply send_eq|].
  cbn [_allowed_recipients set_allowed_recipients].
  apply elem_of_union_l, elem_of_singleton. reflexivity.
Qed.

Lemma mail_params_loop_single (s : SmtpProtocol) (key value : bytes) (n : Z) :
  Bytes.upper key = "SIZE" -> Bytes.to_int value = Some n ->
  mail_params_loop [(key, value)] [(key, value)] s =
  if (truthy_int (_max_size s) && (default 0 (_max_size s) <=? n))%bool
  then Outcome (Returned LoopReturn) s
         [Write (terminated "552 Message size exceeds fixed maximium message size");
          Drain]
  else Outcome (Returned (LoopEnd [])) (set_message_size (Some n) s) [].
Proof.
  intros Hk Hv. cbn [mail_params_loop]. rewrite Hk, Hv.
  change (("SIZE" =? "SIZE")%string) with true. cbv iota. rewrite bind_get.
  destruct (truthy_int (_max_size s) && _)%bool; [reflexivity|].
  rewrite bind_modify. cbn [dict_del]. rewrite String.eqb_refl. reflexivity.
Qed.

(** X17.  After EHLO, a MAIL whose only parameter is [SIZE=n] is
    checked against the maximum size: when a maximum is set and [n]
    reaches it, the reply is 552 and the session is left as it was;
    otherwise the sender and the declared size are both recorded and
    the reply is [250 Ok]. *)
Theorem mail_with_declared_size (s : SmtpProtocol)
    (arg addr params key value : bytes) (n : Z) :
  truthy_bytes (_helo s) = true ->
  truthy_bytes (_sender s) = false ->
  _is_esmtp s = true ->
  arg <> "" ->
  parse_addr (strip_keyword arg "FROM:") = Returned (Some addr, params) ->
  addr <> "" -> params <> "" ->
  parse_mail_params params = Some [(key, value)] ->
  Bytes.upper key = "SIZE" -> Bytes.to_int value = Some n ->
  mail (Some arg) s =
  if (truthy_int (_max_size s) && (default 0 (_max_size s) <=? n))%bool
  then Outcome (Returned tt) s
         [Write (terminated "552 Message size exceeds fixed maximium message size");
          Drain]
  else Outcome (Returned tt) (set_sender (Some addr) (set_message_size (Some n) s))
         [Write (terminated "250 Ok"); Drain].
Proof.
  intros Hh Hs He Harg Hp Haddr Hpar Hd Hk Hv.
  unfold mail. rewrite bind_get, Hh, Hs, He.
  destruct arg as [|c arg]; [congruence|]. truth.
  rewrite Hp, bind_lift_returned. truth.
  destruct addr as [|a addr]; [congruence|].
  destruct params as [|p params]; [congruence|]. truth.
  rewrite Hd. unfold bind. rewrite (mail_params_loop_single s key value n Hk Hv).
  destruct (truthy_int (_max_size s) && _)%bool; reflexivity.
Qed.

(** *** The run loop *)

(** X18.  A cancelled read ends the loop and [run] closes the session:
    on an open session that is not closed yet, only the greeting has
    been written, the closing future is done, the coroutine ends
    without an exception, and later events are not looked at. *)
Theorem run_cancelled (s : SmtpProtocol) (rest : list event) :
  done (connection_open s) = true ->
  done (connection_closed s) = false ->
  run (Read Cancelled :: rest) s
  = Outcome (Returned RunFinished) (set_connection_closed (Done tt) s)
      [Write (terminated ("220 " +:+ _fqdn s +:+ " ESMTP")); Drain].
Proof.
  intros Ho Hc.
  assert (Hb : breaks_on_cancel (session_step Cancelled) s
               = Outcome (Returned true) s []).
  { unfold breaks_on_cancel, session_step. rewrite bind_get.
    destruct (_read_mode s); reflexivity. }
  assert (Hl : run_loop (Read Cancelled :: rest) s
               = Outcome (Returned LoopExited) s []).
  { cbn [run_loop]. rewrite bind_get, Hc.
    rewrite (bind_returned _ _ _ _ _ _ Hb). reflexivity. }
  unfold run. rewrite bind_get, Ho. cbn [negb]. rewrite bind_send.
  rewrite (bind_returned _ _ _ _ _ _ Hl). cbn [result final effects app].
  assert (Hclose : close s = Outcome (Returned tt) (set_connection_closed (Done tt) s) []).
  { rewrite close_eq. destruct (connection_closed s); [reflexivity|discriminate Hc]. }
  rewrite (bind_returned _ _ _ _ _ _ Hclose). reflexivity.
Qed.

(** *** Size accounting in the sessions that can arise *)

(** No maximum size, no truncated recipients. *)
Definition quota_off (s : SmtpProtocol) : Prop :=
  _max_size s = None /\ _recipients_truncated s = false.

Lemma dispatch_quota (key : bytes) (m : method) (arg : option bytes)
    (s : SmtpProtocol) :
  getitem COMMANDS key = Returned m -> quota_off s -> quota_off (final (m arg s)).
Proof.
  unfold COMMANDS. cbn [getitem]. intros Hg [Hm Ht]. revert Hg.
  repeat match goal with
         | |- context [String.eqb ?k key] =>
             destruct (String.eqb_spec k key) as [E|_]; [subst key; intros [= <-]|]
         end; [..|discriminate].
  - unfold helo. rewrite bind_get. branches; rewrite ?bind_modify, send_eq; split; assumption.
  - unfold ehlo. rewrite bind_get. destruct (truthy_bytes _); [split; assumption|].
    destruct (split_command arg) as [[host rest]|e]; [|split; assumption].
    rewrite bind_lift_returned. truth.
    destruct (Bytes.is_empty host); rewrite ?bind_modify, send_eq; split; assumption.
  - unfold vrfy. destruct arg as [arg|]; [|split; assumption].
    rewrite bind_get. destruct (bool_decide _); [split; assumption|].
    rewrite bind_emit. destruct (truthy_bytes _); split; assumption.
  - split; assumption.
  - split; reflexivity.
  - destruct (mail_ends arg s) as [e Hr Hf Hfx | ms line Hr Hf Hfx Hc
                                  | ms addr Hh Hs Ha Hr Hf Hfx];
      rewrite Hf; split; assumption.
  - unfold rcpt. rewrite bind_get, Hm.
    destruct (negb (truthy_bytes (_helo s))); [split; assumption|].
    destruct (negb (truthy_bytes (_sender s))); [split; assumption|].
    destruct (negb (truthy_bytes arg)); [split; assumption|].
    destruct (parse_addr _) as [[addr params]|e]; [|split; assumption].
    rewrite bind_lift_returned.
    destruct (negb (truthy_bytes _)); [split; assumption|].
    destruct (negb (Bytes.is_empty _)); [split; assumption|].
    cbn [truthy_int]. rewrite andb_false_r, bind_modify, send_eq. split; assumption.
  - unfold data. rewrite bind_get. branches; split; assumption.
  - unfold noop. branches; split; assumption.
  - unfold quit. destruct (truthy_bytes arg); [split; assumption|].
    rewrite bind_send, close_eq. destruct (connection_closed s); split; assumption.
Qed.

Lemma step_quota (s : SmtpProtocol) (r : read_result) :
  quota_off s -> quota_off (final (session_step r s)).
Proof.
  intros Hq. unfold session_step. rewrite bind_get.
  destruct (_read_mode s).
  - destruct r as [line| |]; cbn [read_command]; [|exact Hq|exact Hq].
    unfold handle_command.
    destruct (getitem COMMANDS _) as [m|x] eqn:Hg; [|exact Hq].
    rewrite bind_lift_returned. cbn [truthy_method].
    apply (dispatch_quota _ _ _ _ Hg Hq).
  - destruct r as [block| |]; cbn [read_data]; [|exact Hq|exact Hq].
    unfold handle_data. rewrite bind_get. destruct Hq as [Hm Ht]. rewrite Hm.
    cbn [truthy_int andb]. rewrite bind_emit, bind_modify, send_eq.
    split; reflexivity.
Qed.

Lemma reachable_quota_off (s : SmtpProtocol) : reachable s -> quota_off s.
Proof.
  induction 1 as [fqdn max_size|s _ IH|s r _ IH|s _ IH|s _ IH].
  - split; reflexivity.
  - unfold client_connected. rewrite bind_modify, bind_get.
    destruct (connection_open _); exact IH.
  - apply step_quota, IH.
  - unfold connection_lost. rewrite bind_modify, bind_get.
    destruct (connection_closed _); exact IH.
  - rewrite close_eq. destruct (connection_closed s); exact IH.
Qed.

(** X21.  In every session that can arise the maximum size is unset
    and no recipient was ever truncated, so a data block of any length
    completes the transaction: it is handed to the delivery handler
    with the sender and recipients held, the reply is the plain
    [250 Ok], and the session is reset. *)
Theorem reachable_data_block_is_delivered (s : SmtpProtocol) (block : bytes) :
  reachable s ->
  _max_size s = None /\ _recipients_truncated s = false /\
  handle_data block s
  = Outcome (Returned tt) (reset_state s)
      [Deliver (_sender s) (_recipients s) block;
       Write (terminated "250 Ok"); Drain].
Proof.
  intros Hr. destruct (reachable_quota_off s Hr) as [Hm Ht].
  split; [exact Hm|]. split; [exact Ht|].
  unfold handle_data. rewrite bind_get, Hm, Ht. reflexivity.
Qed.

(** X22.  In every session that can arise an RCPT that passes the
    sequencing and syntax checks is always accepted: the address is
    appended and the reply is [250 Ok]; the 552 channel reply is never
    sent. *)
Theorem reachable_rcpt_is_accepted (s : SmtpProtocol) (arg addr : bytes) :
  reachable s ->
  truthy_bytes (_helo s) = true ->
  truthy_bytes (_sender s) = true ->
  arg <> "" ->
  parse_addr (strip_keyword arg "TO:") = Returned (Some addr, "") ->
  addr <> "" ->
  rcpt (Some arg) s
  = Outcome (Returned tt) (set_recipients (_recipients s ++ [addr])%list s)
      [Write (terminated "250 Ok"); Drain].
Proof.
  intros Hr Hh Hs Harg Hp Haddr. destruct (reachable_quota_off s Hr) as [Hm _].
  unfold rcpt. rewrite bind_get, Hh, Hs, Hm.
  destruct arg as [|c arg]; [congruence|]. truth.
  rewrite Hp, bind_lift_returned. truth.
  destruct addr as [|a addr]; [congruence|]. truth.
  rewrite andb_false_r. reflexivity.
Qed.

(** *** Rejections *)

Lemma rset_rejection arg s : rejected (rset arg s) = true -> final (rset arg s) = s.
Proof. unfold rset. rewrite bind_modify, send_eq. kept_or_not_rejected. Qed.

(** X23.  A command that is answered 501 or 503 leaves the session
    object as it was, whatever the command; so does a command answered
    555, unless the command is MAIL. *)
Theorem rejection_keeps_session (line : bytes) (s : SmtpProtocol) :
  let o := handle_command line s in
  (sent_code "501" o || sent_code "503" o)%bool = true \/
  (sent_code "555" o = true /\ Bytes.upper (command_of line).1 <> "MAIL") ->
  final o = s.
Proof.
  intros o. subst o. unfold handle_command.
  remember (Bytes.upper (command_of line).1) as key eqn:Hkey.
  remember (command_of line).2 as arg eqn:Harg.
  destruct (getitem COMMANDS key) as [m|x] eqn:Hg; [|reflexivity].
  rewrite bind_lift_returned. cbn [truthy_method]. intros Hrej.
  assert (Hany : key <> "MAIL" -> rejected (m arg s) = true).
  { intros Hk. unfold rejected. destruct Hrej as [H|[H _]]; rewrite H.
    - reflexivity.
    - apply orb_true_r. }
  revert Hg Hrej Hany. unfold COMMANDS. cbn [getitem].
  repeat match goal with
         | |- context [String.eqb ?k key] =>
             destruct (String.eqb_spec k key) as [E|_];
             [rewrite <- E; intros [= <-] Hrej Hany|]
         end; [..|discriminate].
  - apply helo_rejection, Hany. discriminate.
  - apply ehlo_rejection, Hany. discriminate.
  - apply vrfy_rejection, Hany. discriminate.
  - reflexivity.
  - apply rset_rejection, Hany. discriminate.
  - destruct Hrej as [H|[_ H]]; [apply mail_rejection, H|congruence].
  - apply rcpt_rejection, Hany. discriminate.
  - apply data_rejection, Hany. discriminate.
  - apply noop_rejection, Hany. discriminate.
  - apply quit_rejection, Hany. discriminate.
Qed.

End Protocol.

(** ** The properties on concrete sessions *)

(** From here on the collaborators are those of [Sample]. *)
#[local] Existing Instance Sample.parser.
#[local] Existing Instance Sample.handler.
#[local] Existing Instance Sample.transport.

Lemma unknown_command_raises_KeyError_witness :
  let s := connected "localhost" None in
  handle_command "BOGUS" s = Outcome (Raised KeyError) s [].
Proof.
  intros s. apply unknown_command_raises_KeyError.
  change (Bytes.upper (command_of "BOGUS").1) with "BOGUS".
  intros Hin. cbn in Hin.
  repeat (apply elem_of_cons in Hin as [Hin|Hin]; [discriminate Hin|]).
  apply elem_of_nil in Hin. exact Hin.
Defined.

Lemma data_too_long_stays_in_data_mode_witness :
  let s := after
             [Got "HELO a"; Got "MAIL FROM:<x@y>"; Got "RCPT TO:<a@b>"; Got "DATA"]
             (connected "localhost" None) in
  let o := session_step TooMuchData s in
  _read_mode s = READ_MODE_DATA /\
  result o = Returned tt /\
  responses (effects o) = [terminated "552 Message exceeds fixed maximum size"] /\
  final o = s /\
  _read_mode (final o) = READ_MODE_DATA.
Proof.
  intros s o. split; [reflexivity|].
  apply data_too_long_stays_in_data_mode. reflexivity.
Defined.

(** After [VRFY <z@y>] has been resolved by the handler the address is
    in the set of verified addresses, and an RSET empties the set: the
    reset does modify it. *)
Lemma reset_modifies_verified_addresses :
  let s := after [Got "VRFY <z@y>"] (connected "localhost" None) in
  _allowed_recipients s = {[ "<z@y>" ]} /\
  _allowed_recipients (final (rset None s)) <> _allowed_recipients s.
Proof.
  intros s. split; [reflexivity|].
  change (_allowed_recipients (final (rset None s))) with (∅ : gset string).
  change (_allowed_recipients s) with ({[ "<z@y>" ]} : gset string).
  intros Heq. apply (not_elem_of_empty (C:=gset string) "<z@y>").
  rewrite Heq. apply elem_of_singleton. reflexivity.
Qed.

Lemma reset_clears_transaction_and_cache_witness :
  let s := after [Got "HELO a"; Got "VRFY <z@y>"; Got "MAIL FROM:<x@y>"]
             (connected "localhost" None) in
  let s' := reset_state s in
  truthy_int (_max_size s) = false /\
  _sender s = Some "x@y" /\ _allowed_recipients s = {[ "<z@y>" ]} /\
  final (rset None s) = s' /\
  final (handle_data "hello" s) = s' /\
  _sender s' = None /\ _recipients s' = [] /\ _message_size s' = None /\
  _recipients_truncated s' = false /\ _is_esmtp s' = false /\
  _helo s' = None /\
  _allowed_recipients s' = ∅ /\ _read_mode s' = READ_MODE_COMMAND /\
  _fqdn s' = _fqdn s /\ _state s' = _state s /\
  connection_open s' = connection_open s /\
  connection_closed s' = connection_closed s.
Proof.
  intros s s'.
  split; [reflexivity|]. split; [reflexivity|]. split; [reflexivity|].
  apply (reset_clears_transaction_and_cache s None "hello"). reflexivity.
Defined.

Lemma sender_requires_greeting_witness :
  let s0 := connected "localhost" None in
  let inputs := [Got "HELO a"; Got "MAIL FROM:<x@y>"; Got "RCPT TO:<a@b>"] in
  let s2 := after [Got "HELO a"; Got "MAIL FROM:<x@y>"] s0 in
  let e := Entry s2 (Got "RCPT TO:<a@b>") (session_step (Got "RCPT TO:<a@b>") s2) in
  rcpt_ok e = true /\
  exists l m l',
    exec s0 [Got "HELO a"; Got "MAIL FROM:<x@y>"] = (l ++ m :: l')%list /\
    mail_ok m = true /\ no_reset l' = true.
Proof.
  intros s0 inputs s2 e. split; [reflexivity|].
  assert (Hx : exec s0 inputs
               = (exec s0 [Got "HELO a"; Got "MAIL FROM:<x@y>"] ++ [e])%list)
    by (vm_compute; reflexivity).
  apply (proj1 (proj2 sender_requires_greeting "localhost" None inputs
                  (exec s0 [Got "HELO a"; Got "MAIL FROM:<x@y>"]) e [] Hx)).
  reflexivity.
Defined.


(** The refusal, on a session whose [_max_size] attribute has been
    assigned from outside (the constructor never leaves it set). *)
Lemma rcpt_refusal_example :
  let s := set_max_size (Some 1000)
             (after [Got "EHLO example.com"; Got "MAIL FROM:<x@y> SIZE=10"]
                (connected "localhost" None)) in
  rcpt (Some "TO:<a@b>") s
  = Outcome (Returned tt) (set_recipients_truncated true s)
      [Write (terminated ("552 Channel size limit exceeded: " +:+ "a@b")); Drain].
Proof. vm_compute. reflexivity. Qed.


Lemma mail_555_records_declared_size_witness :
  let s := after [Got "EHLO example.com"] (connected "localhost" None) in
  let o := mail (Some "FROM:<a@b> SIZE=100 FOO=bar") s in
  _message_size s = None /\
  result o = Returned tt /\
  responses (effects o) = [terminated "555 Unrecognized extension"] /\
  final o = set_message_size (Some 100) s /\
  _sender (final o) = _sender s /\
  _message_size (final o) = Some 100.
Proof.
  intros s o. split; [reflexivity|].
  apply (mail_555_records_declared_size s "FROM:<a@b> SIZE=100 FOO=bar" "a@b");
    solve [reflexivity | discriminate].
Defined.

Lemma mail_parameters_need_ehlo_witness :
  let s := after [Got "HELO a"] (connected "localhost" None) in
  mail (Some "FROM:<x@y> SIZE=5") s
  = Outcome (Returned tt) s
      [Write (terminated "501 Syntax: MAIL FROM: <address>"); Drain].
Proof.
  intros s.
  apply (mail_parameters_need_ehlo s "FROM:<x@y> SIZE=5" (Some "x@y") "SIZE=5");
    solve [reflexivity | discriminate].
Defined.

(** A nested MAIL with parameter text after a plain HELO is answered
    503 by the sequencing check, not 501. *)
Lemma nested_mail_with_parameters_counterexample :
  let s := after [Got "HELO a"; Got "MAIL FROM:<x@y>"] (connected "localhost" None) in
  let o := session_step (Got "MAIL FROM:<x@y> SIZE=5") s in
  truthy_bytes (_helo s) = true /\ _is_esmtp s = false /\
  _sender s = Some "x@y" /\
  o = Outcome (Returned tt) s
        [Write (terminated "503 Error: Nested MAIL command"); Drain] /\
  sent_code "501" o = false.
Proof.
  intros s o. repeat split; vm_compute; reflexivity.
Qed.

(** ** The further properties on concrete sessions *)

Lemma strip_keyword_prefix_witness :
  strip_keyword ("from:" +:+ " <a@b> ") "FROM:" = Bytes.strip " <a@b> ".
Proof. apply strip_keyword_prefix. reflexivity. Defined.

Lemma mail_without_from_keyword_witness :
  let s := after [Got "HELO a"] (connected "localhost" None) in
  mail (Some "<x@y>") s
  = Outcome (Returned tt) s
      [Write (terminated "501 Syntax: MAIL FROM: <address>"); Drain].
Proof.
  intros s. apply mail_without_from_keyword; solve [reflexivity | discriminate].
Defined.

Lemma rcpt_without_to_keyword_witness :
  let s := after [Got "HELO a"; Got "MAIL FROM:<x@y>"] (connected "localhost" None) in
  rcpt (Some "<a@b>") s
  = Outcome (Returned tt) s [Write (terminated "501 Syntax: RCPT <address>"); Drain].
Proof.
  intros s. apply rcpt_without_to_keyword; solve [reflexivity | discriminate].
Defined.

Lemma parse_mail_params_none_witness :
  parse_mail_params "SIZE=1  X=2" = None.
Proof.
  apply (proj2 (parse_mail_params_none "SIZE=1  X=2")).
  change (Bytes.split " " "SIZE=1  X=2") with ["SIZE=1"; ""; "X=2"].
  apply Exists_cons_tl, Exists_cons_hd. reflexivity.
Defined.

Lemma parse_mail_params_some_witness :
  let params := [("SIZE", "100"); ("FOO", "bar")] in
  params <> [] /\
  NoDup params.*1 /\
  forall key value, (key, value) ∈ params ->
    key +:+ String "=" value ∈ Bytes.split " " "SIZE=100 FOO=bar" /\
    Bytes.find key "=" = -1.
Proof.
  intros params. apply (parse_mail_params_some "SIZE=100 FOO=bar" params).
  reflexivity.
Defined.

Lemma ehlo_outcomes_witness :
  let s := connected "localhost" None in
  ehlo (Some "example.com extra") s = Outcome (Raised AttributeError) s [].
Proof.
  intros s. exact (ehlo_outcomes s (Some "example.com extra") eq_refl).
Defined.

Lemma data_mode_has_transaction_witness :
  let s := after
             [Got "HELO a"; Got "MAIL FROM:<x@y>"; Got "RCPT TO:<a@b>"; Got "DATA"]
             (connected "localhost" None) in
  _read_mode s = READ_MODE_DATA /\
  (_recipients s <> [] -> truthy_bytes (_sender s) = true) /\
  (_read_mode s = READ_MODE_DATA ->
     _recipients s <> [] /\
     truthy_bytes (_sender s) = true /\
     truthy_bytes (_helo s) = true).
Proof.
  intros s. split; [reflexivity|].
  apply data_mode_has_transaction, reachable_after, reachable_connected.
Defined.

Lemma transaction_data_only_grows_witness :
  let s := after [Got "HELO a"; Got "MAIL FROM:<x@y>"] (connected "localhost" None) in
  let r := Got "RCPT TO:<a@b>" in
  _recipients (final (session_step r s)) = ["a@b"] /\
  _recipients s `prefix_of` _recipients (final (session_step r s)) /\
  _allowed_recipients s ⊆ _allowed_recipients (final (session_step r s)).
Proof.
  intros s r. split; [reflexivity|].
  apply transaction_data_only_grows. reflexivity.
Defined.

Lemma greeting_and_sender_set_once_witness :
  let s := after [Got "HELO a"; Got "MAIL FROM:<x@y>"] (connected "localhost" None) in
  let r := Got "HELO b" in
  (truthy_bytes (_helo s) = true ->
     _helo (final (session_step r s)) = _helo s /\
     _is_esmtp (final (session_step r s)) = _is_esmtp s) /\
  (truthy_bytes (_sender s) = true ->
     _sender (final (session_step r s)) = _sender s).
Proof.
  intros s r. apply greeting_and_sender_set_once. reflexivity.
Defined.


Lemma turn_keeps_lifecycle_witness :
  let s := connected "localhost" None in
  let r := Got "NOOP" in
  connection_closed (final (session_step r s)) = connection_closed s.
Proof. intros s r. apply (proj2 (turn_keeps_lifecycle s r)). reflexivity. Defined.

Lemma read_mode_switches_witness :
  let s := after [Got "HELO a"; Got "MAIL FROM:<x@y>"; Got "RCPT TO:<a@b>"]
             (connected "localhost" None) in
  let r := Got "DATA" in
  _read_mode (final (session_step r s)) = READ_MODE_DATA.
Proof.
  intros s r.
  apply (proj2 (proj1 (read_mode_switches s r) eq_refl)). split; reflexivity.
Defined.

Lemma reset_requires_new_greeting_witness :
  let s := after [Got "HELO a"; Got "MAIL FROM:<x@y>"] (connected "localhost" None) in
  let s' := reset_state s in
  mail (Some "FROM:<x@y>") s'
  = Outcome (Returned tt) s' [Write (terminated "503 Error: Send HELO first"); Drain].
Proof.
  intros s s'.
  apply (proj1 (reset_requires_new_greeting s "FROM:<x@y>" ltac:(discriminate))).
Defined.

Lemma vrfy_caches_resolved_address_witness :
  let s := connected "localhost" None in
  let o := vrfy (Some "<z@y>") s in
  effects o = [Verify "<z@y>"] /\
  _allowed_recipients (final o) = {[ "<z@y>" ]} ∪ _allowed_recipients s /\
  vrfy (Some "<z@y>") (final o)
  = Outcome (Returned tt) (final o)
      [Write (terminated
         "252 Cannot verify user, but will accept message and attempt delivery");
       Drain].
Proof.
  intros s o.
  assert (Hnot : "<z@y>" ∉ _allowed_recipients s) by apply not_elem_of_empty.
  exact (vrfy_caches_resolved_address s "<z@y>" Hnot).
Defined.

Lemma mail_with_declared_size_witness :
  let s := after [Got "EHLO example.com"] (connected "localhost" None) in
  mail (Some "FROM:<a@b> SIZE=100") s
  = Outcome (Returned tt) (set_sender (Some "a@b") (set_message_size (Some 100) s))
      [Write (terminated "250 Ok"); Drain].
Proof.
  intros s.
  apply (mail_with_declared_size s "FROM:<a@b> SIZE=100" "a@b" "SIZE=100"
           "SIZE" "100" 100);
    solve [reflexivity | discriminate].
Defined.

Lemma run_cancelled_witness :
  let s := connected "localhost" None in
  run [Read Cancelled; Read (Got "NOOP")] s
  = Outcome (Returned RunFinished) (set_connection_closed (Done tt) s)
      [Write (terminated ("220 " +:+ _fqdn s +:+ " ESMTP")); Drain].
Proof. intros s. apply run_cancelled; reflexivity. Defined.

Lemma close_suppresses_transport_errors_witness :
  let s := connected "localhost" None in
  close s = Outcome (Returned tt) (set_connection_closed (Done tt) s) [].
Proof. intros s. apply close_suppresses_transport_errors. reflexivity. Defined.

Lemma ehlo_reply_of_reachable_witness :
  let s := connected "localhost" None in
  ehlo (Some "example.com") s
  = Outcome (Returned tt) (set_helo (Some "example.com") (set_is_esmtp true s))
      [Write (terminated ("250-" +:+ _fqdn s +:+ LINE_TERM +:+ "250 HELP")); Drain].
Proof.
  intros s. apply (ehlo_reply_of_reachable s (Some "example.com") "example.com" None).
  - apply reachable_connected.
  - reflexivity.
  - reflexivity.
  - discriminate.
Defined.

Lemma reachable_data_block_is_delivered_witness :
  let s := after
             [Got "HELO a"; Got "MAIL FROM:<x@y>"; Got "RCPT TO:<a@b>"; Got "DATA"]
             (connected "localhost" None) in
  _max_size s = None /\ _recipients_truncated s = false /\
  handle_data "hello" s
  = Outcome (Returned tt) (reset_state s)
      [Deliver (_sender s) (_recipients s) "hello";
       Write (terminated "250 Ok"); Drain].
Proof.
  intros s. apply reachable_data_block_is_delivered, reachable_after, reachable_connected.
Defined.

Lemma reachable_rcpt_is_accepted_witness :
  let s := after [Got "HELO a"; Got "MAIL FROM:<x@y>"] (connected "localhost" None) in
  rcpt (Some "TO:<a@b>") s
  = Outcome (Returned tt) (set_recipients (_recipients s ++ ["a@b"])%list s)
      [Write (terminated "250 Ok"); Drain].
Proof.
  intros s. apply reachable_rcpt_is_accepted;
    solve [reflexivity | discriminate | apply reachable_after, reachable_connected].
Defined.

Lemma rejection_keeps_session_witness :
  let s := connected "localhost" None in
  final (handle_command "MAIL FROM:<x@y>" s) = s.
Proof.
  intros s. apply rejection_keeps_session. left. reflexivity.
Defined.
